(** * Slonik: a shallow embedding of [src/types.ts] and of the query engine
      the types describe.

    [src/types.ts] holds the data model of the client: value expressions,
    SQL tokens, queries and their results, the client configuration, the
    connection handles and the interceptor protocol.  Those are embedded here
    from the type declarations.  The functions that work on them (the SQL
    interpreter, the shape functions, the retry loops) live in files that are
    not part of [src/]; each of them is introduced by a comment saying that it
    is modelled from the specification. *)

From Stdlib Require Import String Ascii List Bool Arith ZArith Lia.
From Stdlib Require Import Floats.SpecFloat Numbers.DecimalString.
Import ListNotations.
Set Warnings "-register-all".
Local Open Scope string_scope.
Local Open Scope nat_scope.
Local Open Scope list_scope.

(* ------------------------------------------------------------------ *)
(** * Errors *)

(** The error classes are imported by [types.ts] from [./errors]
    ([SlonikError]); the kinds are those of the error taxonomy. *)
Inductive SlonikError : Type :=
| InvalidInputError
| ConnectionError
| PoolEndedError
| ConcurrencyError
| StatementTimeoutError
| IdleTransactionTimeoutError
| NotFoundError
| DataIntegrityError
| SchemaValidationError
| IntegrityConstraintViolationError
| BackendTerminatedError
| UnexpectedStateError
| DriverError (code : string).

(** A computation that either returns or throws. *)
Inductive Completion (A : Type) : Type :=
| Return (a : A)
| Throw (e : SlonikError).
Arguments Return {A} a.
Arguments Throw {A} e.

Definition bind {A B : Type} (c : Completion A) (k : A -> Completion B)
  : Completion B :=
  match c with
  | Return a => k a
  | Throw e => Throw e
  end.

Notation "x <- c ;; k" := (bind c (fun x => k))
  (at level 61, c at next level, right associativity).

(* ------------------------------------------------------------------ *)
(** * Primitive values ([types.ts], [PrimitiveValueExpression]) *)

(** A JavaScript [number] is an IEEE-754 double: zeros, finite values,
    infinities and NaN. *)
Definition number : Type := spec_float.

Definition isFinite (n : number) : bool :=
  match n with
  | S754_zero _ => true
  | S754_finite _ _ _ => true
  | S754_infinity _ => false
  | S754_nan => false
  end.

(** An integer literal as a [number]. *)
Definition num (z : Z) : number :=
  match z with
  | Z0 => S754_zero false
  | Zpos p => S754_finite false p 0
  | Zneg p => S754_finite true p 0
  end.

Definition NaN : number := S754_nan.
Definition Infinity : number := S754_infinity false.
Definition NegativeInfinity : number := S754_infinity true.

Definition Buffer : Type := list Byte.byte.

(** [Buffer | boolean | number | string | readonly PrimitiveValueExpression[] | null] *)
Inductive PrimitiveValueExpression : Type :=
| PBuffer (data : Buffer)
| PBoolean (b : bool)
| PNumber (n : number)
| PString (s : string)
| PArray (items : list PrimitiveValueExpression)
| PNull.

(** The values JavaScript code can hand to the library, by runtime kind.
    [PrimitiveValueExpression] is a union of some of them. *)
Inductive JsValue : Type :=
| JsBuffer (data : Buffer)
| JsBoolean (b : bool)
| JsNumber (n : number)
| JsString (s : string)
| JsArray (items : list JsValue)
| JsNull
| JsUndefined
| JsObject (props : list (string * JsValue))
| JsFunction (name : string).

Inductive JsKind : Type :=
| KBuffer | KBoolean | KNumber | KString | KArray | KNull
| KUndefined | KObject | KFunction.

Definition kindOf (v : JsValue) : JsKind :=
  match v with
  | JsBuffer _ => KBuffer
  | JsBoolean _ => KBoolean
  | JsNumber _ => KNumber
  | JsString _ => KString
  | JsArray _ => KArray
  | JsNull => KNull
  | JsUndefined => KUndefined
  | JsObject _ => KObject
  | JsFunction _ => KFunction
  end.

(** Membership of a runtime value in the union type
    [PrimitiveValueExpression], member by member. *)
Fixpoint isPrimitiveValueExpression (v : JsValue) : bool :=
  match v with
  | JsBuffer _ => true
  | JsBoolean _ => true
  | JsNumber _ => true
  | JsString _ => true
  | JsArray items => forallb isPrimitiveValueExpression items
  | JsNull => true
  | JsUndefined => false
  | JsObject _ => false
  | JsFunction _ => false
  end.

(** The runtime value of a primitive value expression. *)
Fixpoint toJsValue (p : PrimitiveValueExpression) : JsValue :=
  match p with
  | PBuffer d => JsBuffer d
  | PBoolean b => JsBoolean b
  | PNumber n => JsNumber n
  | PString s => JsString s
  | PArray items => JsArray (map toJsValue items)
  | PNull => JsNull
  end.

(** No NaN and no infinity, at any nesting depth. *)
Fixpoint finitePrimitive (p : PrimitiveValueExpression) : bool :=
  match p with
  | PNumber n => isFinite n
  | PArray items => forallb finitePrimitive items
  | _ => true
  end.

(** [SerializableValue]: what the JSON tokens carry. A property of an object
    may be [undefined], hence the [option]. *)
Inductive SerializableValue : Type :=
| SBoolean (b : bool)
| SNumber (n : number)
| SString (s : string)
| SArray (items : list SerializableValue)
| SObject (props : list (string * option SerializableValue))
| SNull.

Definition TypeNameIdentifier : Type := string.

(* ------------------------------------------------------------------ *)
(** * SQL text *)

(** The text of a statement is kept as the builder concatenates it: literal
    chunks and positional placeholders.  In a raw token a placeholder's
    number is local to the token's value list; in a query it is global.  A
    literal chunk is opaque: nothing inside it counts as a placeholder. *)
Inductive SqlPart : Type :=
| Text (s : string)
| Placeholder (n : nat).

Definition Sql : Type := list SqlPart.

Definition decimal (n : nat) : string :=
  NilZero.string_of_uint (Nat.to_uint n).

Definition renderPart (p : SqlPart) : string :=
  match p with
  | Text s => s
  | Placeholder n => ("$" ++ decimal n)%string
  end.

(** The statement as the driver receives it. *)
Definition render (s : Sql) : string :=
  fold_right (fun p acc => (renderPart p ++ acc)%string) "" s.

Fixpoint placeholders (s : Sql) : list nat :=
  match s with
  | [] => []
  | Text _ :: rest => placeholders rest
  | Placeholder n :: rest => n :: placeholders rest
  end.

(** Renumbering: every placeholder moved up by [offset]. *)
Definition shiftPart (offset : nat) (p : SqlPart) : SqlPart :=
  match p with
  | Text s => Text s
  | Placeholder n => Placeholder (offset + n)
  end.

Definition shift (offset : nat) (s : Sql) : Sql := map (shiftPart offset) s.

(* ------------------------------------------------------------------ *)
(** * Queries and tokens ([types.ts]) *)

(** [Query] and [SqlFragment] are the same structure in the source. *)
Record Query : Type := mkQuery {
  sql : Sql;
  values : list PrimitiveValueExpression;
}.

Definition SqlFragment : Type := Query.

(** A Zod schema, as far as the query engine sees it: a name and the parser
    it runs on a row. *)
Record ZodTypeAny : Type := mkZod {
  schemaName : string;
  parse : list (string * PrimitiveValueExpression)
          -> option (list (string * PrimitiveValueExpression));
}.

(** [SqlSqlToken]: the [type] tag is the constructor of [SqlToken] below. *)
Record SqlSqlToken : Type := mkSqlSqlToken {
  token_sql : Sql;
  token_values : list PrimitiveValueExpression;
  zodObject : ZodTypeAny;
}.

(** A column type of [unnest]: a type name, a qualified name
    ([[...string[], TypeNameIdentifier]]) or a raw fragment. *)
Inductive ColumnType : Type :=
| ColumnName (name : TypeNameIdentifier)
| ColumnPath (path : list string)
| ColumnSql (fragment : SqlSqlToken).

Inductive SqlToken : Type :=
| ArrayToken (memberType : MemberType) (array_values : list PrimitiveValueExpression)
| BinaryToken (data : Buffer)
| IdentifierToken (names : list string)
| JsonBinaryToken (value : SerializableValue)
| JsonToken (value : SerializableValue)
| ListToken (glue : SqlSqlToken) (members : list ValueExpression)
| SqlTokenOf (raw : SqlSqlToken)
| UnnestToken (columnTypes : list ColumnType) (tuples : list (list ValueExpression))
with MemberType : Type :=
| MemberToken (t : SqlToken)
| MemberName (name : TypeNameIdentifier)
with ValueExpression : Type :=
| Primitive (p : PrimitiveValueExpression)
| Token (t : SqlToken).

(* ------------------------------------------------------------------ *)
(** * The SQL interpreter *)

(** Identifier quoting: the name between double quotes, embedded double
    quotes doubled. *)
Definition dquote : ascii := ascii_of_nat 34.

Fixpoint doubleQuotes (s : string) : string :=
  match s with
  | EmptyString => EmptyString
  | String c rest =>
      if Ascii.eqb c dquote
      then String dquote (String dquote (doubleQuotes rest))
      else String c (doubleQuotes rest)
  end.

Definition escapeIdentifier (name : string) : string :=
  String dquote (doubleQuotes name ++ String dquote EmptyString)%string.

Definition renderIdentifier (names : list string) : string :=
  String.concat "." (map escapeIdentifier names).

(** Tuples of [unnest]: every member a finite primitive, every tuple as wide
    as the column list. *)
Definition primitiveOf (v : ValueExpression) : option PrimitiveValueExpression :=
  match v with
  | Primitive p => if finitePrimitive p then Some p else None
  | Token _ => None
  end.

Fixpoint primitivesOf (vs : list ValueExpression)
  : option (list PrimitiveValueExpression) :=
  match vs with
  | [] => Some []
  | v :: rest =>
      match primitiveOf v, primitivesOf rest with
      | Some p, Some ps => Some (p :: ps)
      | _, _ => None
      end
  end.

Definition checkTuple (width : nat) (tuple : list ValueExpression)
  : option (list PrimitiveValueExpression) :=
  if Nat.eqb (List.length tuple) width then primitivesOf tuple else None.

Fixpoint checkTuples (width : nat) (tuples : list (list ValueExpression))
  : option (list (list PrimitiveValueExpression)) :=
  match tuples with
  | [] => Some []
  | t :: rest =>
      match checkTuple width t, checkTuples width rest with
      | Some row, Some rows => Some (row :: rows)
      | _, _ => None
      end
  end.

(** Column [i] of the tuples, as one array value. *)
Definition column (i : nat) (rows : list (list PrimitiveValueExpression))
  : PrimitiveValueExpression :=
  PArray (map (fun row => nth i row PNull) rows).

Definition transpose (width : nat) (rows : list (list PrimitiveValueExpression))
  : list PrimitiveValueExpression :=
  map (fun i => column i rows) (seq 0 width).

(** The text of a column type. The rendered form [unnest($1::T1[], ...)]
    numbers the columns consecutively, so a raw fragment used as a column
    type contributes no values; one that carries values is refused. *)
Definition renderColumnType (c : ColumnType) : option Sql :=
  match c with
  | ColumnName name => Some [Text (name ++ "[]")%string]
  | ColumnPath path => Some [Text (String.concat "." path ++ "[]")%string]
  | ColumnSql fragment =>
      match token_values fragment with
      | [] => Some (token_sql fragment ++ [Text "[]"])
      | _ :: _ => None
      end
  end.

Fixpoint renderColumns (cols : list ColumnType) (offset : nat) : option Sql :=
  match cols with
  | [] => Some []
  | c :: rest =>
      match renderColumnType c, renderColumns rest (S offset) with
      | Some t, Some r =>
          Some (Placeholder (offset + 1) :: Text "::" :: t
                ++ match rest with [] => [] | _ :: _ => [Text ", "] end
                ++ r)
      | _, _ => None
      end
  end.

Section Interpreter.

(** JSON serialisation with stable key order is the work of an external
    package; [None] is a refused value (a cycle, a value that is not a
    plain object). *)
Variable serialize : SerializableValue -> option string.

(** Modelled from the spec: the interpreter (component B) is not under
    [src/]. A raw fragment's placeholders are renumbered by the number of
    values already in the global list; its values follow in order. *)
Definition interpretRaw (raw : SqlSqlToken) (offset : nat)
  : Completion SqlFragment :=
  if forallb finitePrimitive (token_values raw)
  then Return (mkQuery (shift offset (token_sql raw)) (token_values raw))
  else Throw InvalidInputError.

(** Modelled from the spec: a primitive leaf appends to the global list and
    the global index becomes the rendered placeholder; a non-finite number
    is rejected. *)
Definition interpretPrimitive (p : PrimitiveValueExpression) (offset : nat)
  : Completion SqlFragment :=
  if finitePrimitive p
  then Return (mkQuery [Placeholder (offset + 1)] [p])
  else Throw InvalidInputError.

(** Modelled from the spec: [Binary], [Json] and [JsonBinary] bind one
    value, cast to [bytea], [json] or [jsonb]. *)
Definition interpretBinary (data : Buffer) (offset : nat)
  : Completion SqlFragment :=
  Return (mkQuery [Placeholder (offset + 1); Text "::bytea"] [PBuffer data]).

Definition interpretJson (value : SerializableValue) (cast : string)
  (offset : nat) : Completion SqlFragment :=
  match serialize value with
  | Some text => Return (mkQuery [Placeholder (offset + 1); Text cast] [PString text])
  | None => Throw InvalidInputError
  end.

(** Modelled from the spec: [Array] appends one primitive-array value and
    renders [$k::<memberType>[]], the member type a bare type name or a
    nested raw fragment; any other token as member type is refused. *)
Definition interpretArray (memberType : MemberType)
  (vals : list PrimitiveValueExpression) (offset : nat)
  : Completion SqlFragment :=
  if forallb finitePrimitive vals then
    match memberType with
    | MemberName name =>
        Return (mkQuery [Placeholder (offset + 1); Text ("::" ++ name ++ "[]")%string]
                        [PArray vals])
    | MemberToken (SqlTokenOf raw) =>
        f <- interpretRaw raw (offset + 1) ;;
        Return (mkQuery (Placeholder (offset + 1) :: Text "::" :: sql f ++ [Text "[]"])
                        (PArray vals :: values f))
    | MemberToken _ => Throw InvalidInputError
    end
  else Throw InvalidInputError.

(** Modelled from the spec: [Unnest] validates the tuple width, transposes
    the tuples into one array per column and binds each array as a value
    of its own. *)
Definition interpretUnnest (cols : list ColumnType)
  (tuples : list (list ValueExpression)) (offset : nat)
  : Completion SqlFragment :=
  match checkTuples (List.length cols) tuples, renderColumns cols offset with
  | Some rows, Some s =>
      Return (mkQuery (Text "unnest(" :: s ++ [Text ")"])
                      (transpose (List.length cols) rows))
  | _, _ => Throw InvalidInputError
  end.

(** Modelled from the spec: the members of a list are rendered one after
    the other, each starting at the global index the previous ones left;
    the glue's text is inserted verbatim between members and the value
    lists concatenate. *)
Section Members.
Variable interpretMember : ValueExpression -> nat -> Completion SqlFragment.
Variable glueSql : Sql.

Fixpoint interpretMembers (ms : list ValueExpression) (offset : nat)
  : Completion SqlFragment :=
  match ms with
  | [] => Return (mkQuery [] [])
  | m :: rest =>
      f <- interpretMember m offset ;;
      g <- interpretMembers rest (offset + List.length (values f)) ;;
      Return (mkQuery
                (sql f ++ match rest with [] => [] | _ :: _ => glueSql end ++ sql g)
                (values f ++ values g))
  end.
End Members.

(** Modelled from the spec: the interpreter proper, one case per token
    kind; [offset] is the global counter, the number of values bound so
    far. The glue of a list must be a raw token with zero values. *)
Fixpoint interpretToken (t : SqlToken) (offset : nat) {struct t}
  : Completion SqlFragment :=
  match t with
  | ArrayToken memberType vals => interpretArray memberType vals offset
  | BinaryToken data => interpretBinary data offset
  | IdentifierToken names => Return (mkQuery [Text (renderIdentifier names)] [])
  | JsonBinaryToken value => interpretJson value "::jsonb" offset
  | JsonToken value => interpretJson value "::json" offset
  | ListToken glue members =>
      match token_values glue with
      | [] =>
          interpretMembers
            (fun m off =>
               match m with
               | Primitive p => interpretPrimitive p off
               | Token t' => interpretToken t' off
               end)
            (token_sql glue) members offset
      | _ :: _ => Throw InvalidInputError
      end
  | SqlTokenOf raw => interpretRaw raw offset
  | UnnestToken cols tuples => interpretUnnest cols tuples offset
  end.

Definition interpretValue (v : ValueExpression) (offset : nat)
  : Completion SqlFragment :=
  match v with
  | Primitive p => interpretPrimitive p offset
  | Token t => interpretToken t offset
  end.

(** The statement sent to the driver: the root token interpreted with an
    empty global list. *)
Definition interpret (t : SqlToken) : Completion Query := interpretToken t 0.

(** Modelled from the spec: the tagged-template builder (component A).
    Each literal is appended verbatim, each value is classified and
    appended by the rules of the interpreter; the result is a raw token
    whose values are all primitive. *)
Fixpoint sqlTagLoop (parts : list string) (args : list ValueExpression)
  (offset : nat) : Completion SqlFragment :=
  match parts with
  | [] => Return (mkQuery [] [])
  | part :: parts' =>
      match args with
      | [] =>
          g <- sqlTagLoop parts' [] offset ;;
          Return (mkQuery (Text part :: sql g) (values g))
      | a :: args' =>
          f <- interpretValue a offset ;;
          g <- sqlTagLoop parts' args' (offset + List.length (values f)) ;;
          Return (mkQuery (Text part :: sql f ++ sql g) (values f ++ values g))
      end
  end.

Definition sqlTag (schema : ZodTypeAny) (parts : list string)
  (args : list ValueExpression) : Completion SqlSqlToken :=
  f <- sqlTagLoop parts args 0 ;;
  Return (mkSqlSqlToken (sql f) (values f) schema).

End Interpreter.

(** ** Well-formed tokens *)

(** The placeholders of [s] are exactly the numbers [1..n]. *)
Definition contiguous (s : Sql) (n : nat) : bool :=
  forallb (fun k => (1 <=? k) && (k <=? n)) (placeholders s)
  && forallb (fun k => existsb (Nat.eqb k) (placeholders s)) (seq 1 n).

(** A raw token's placeholder indices form the contiguous range
    [1..values.length]. *)
Definition validRaw (raw : SqlSqlToken) : bool :=
  contiguous (token_sql raw) (List.length (token_values raw)).

Definition validColumnType (c : ColumnType) : bool :=
  match c with
  | ColumnSql fragment => validRaw fragment
  | _ => true
  end.

(** Every raw token of the tree is well formed. *)
Fixpoint validToken (t : SqlToken) : bool :=
  match t with
  | ArrayToken (MemberToken (SqlTokenOf raw)) _ => validRaw raw
  | ArrayToken _ _ => true
  | ListToken glue members =>
      validRaw glue
      && forallb (fun m => match m with
                           | Primitive _ => true
                           | Token t' => validToken t'
                           end) members
  | SqlTokenOf raw => validRaw raw
  | UnnestToken cols _ => forallb validColumnType cols
  | _ => true
  end.

Definition validValue (v : ValueExpression) : bool :=
  match v with
  | Primitive _ => true
  | Token t => validToken t
  end.

(** The placeholders of [s] are exactly the [n] numbers that follow
    [offset]. *)
Definition Numbered (s : Sql) (offset n : nat) : Prop :=
  forall k, In k (placeholders s) <-> offset < k <= offset + n.

(** What the interpreter promises for one token or value at one offset:
    finite values only and, for a well-formed input, contiguous numbering
    from the offset on. *)
Definition FragmentOk (wellFormed : Prop) (c : Completion SqlFragment)
  (offset : nat) : Prop :=
  forall f, c = Return f ->
            (wellFormed -> Numbered (sql f) offset (List.length (values f)))
            /\ forallb finitePrimitive (values f) = true.

(** ** Values supplied to a token *)

(** Every primitive value expression that occurs in a token tree. *)
Definition columnValues (c : ColumnType) : list PrimitiveValueExpression :=
  match c with
  | ColumnSql fragment => token_values fragment
  | _ => []
  end.

Fixpoint suppliedValues (t : SqlToken) : list PrimitiveValueExpression :=
  match t with
  | ArrayToken memberType vals =>
      vals ++ match memberType with
              | MemberToken t' => suppliedValues t'
              | MemberName _ => []
              end
  | ListToken glue members =>
      token_values glue
      ++ flat_map (fun m => match m with
                            | Primitive p => [p]
                            | Token t' => suppliedValues t'
                            end) members
  | SqlTokenOf raw => token_values raw
  | UnnestToken cols tuples =>
      flat_map columnValues cols
      ++ flat_map (flat_map (fun m => match m with
                                      | Primitive p => [p]
                                      | Token t' => suppliedValues t'
                                      end)) tuples
  | _ => []
  end.

(* ------------------------------------------------------------------ *)
(** * Query results ([types.ts]) and the shape functions *)

Record Field : Type := mkField {
  dataTypeId : nat;
  name : string;
}.

(** A notice of the wire protocol ([pg-protocol]), by its message. *)
Definition Notice : Type := string.

Inductive Command : Type := COPY | DELETE | INSERT | SELECT | UPDATE.

Record QueryResult (T : Type) : Type := mkQueryResult {
  command : Command;
  fields : list Field;
  notices : list Notice;
  rowCount : nat;
  rows : list T;
}.
Arguments mkQueryResult {T}.
Arguments command {T}.
Arguments fields {T}.
Arguments notices {T}.
Arguments rowCount {T}.
Arguments rows {T}.

(** [Record<string, PrimitiveValueExpression>], columns in result order. *)
Definition QueryResultRow : Type := list (string * PrimitiveValueExpression).

Section QueryMethods.
Context {T : Type}.

(** The execution pipeline behind every query method: it returns the
    result of the executed query or throws. *)
Variable query : SqlSqlToken -> Completion (QueryResult T).

(** Modelled from the spec: the shape function [one] is not under [src/]
    (only its type [QueryOneFunction] is). Exactly 1 row gives the row,
    0 rows NotFoundError, 2 or more DataIntegrityError. *)
Definition one (slonikSql : SqlSqlToken) : Completion T :=
  result <- query slonikSql ;;
  match rows result with
  | [] => Throw NotFoundError
  | [row] => Return row
  | _ :: _ :: _ => Throw DataIntegrityError
  end.

(** Modelled from the spec: the shape function [maybeOne] is not under
    [src/] (only its type [QueryMaybeOneFunction] is). 0 rows give null,
    1 row the row, 2 or more DataIntegrityError. *)
Definition maybeOne (slonikSql : SqlSqlToken) : Completion (option T) :=
  result <- query slonikSql ;;
  match rows result with
  | [] => Return None
  | [row] => Return (Some row)
  | _ :: _ :: _ => Throw DataIntegrityError
  end.
End QueryMethods.

(* ------------------------------------------------------------------ *)
(** * Contexts and interceptors ([types.ts]) *)

(** The logger ([roarr]) is an external collaborator. *)
Definition Logger : Type := unit.

Definition QueryId : Type := string.

Inductive Connection : Type := EXPLICIT | IMPLICIT_QUERY | IMPLICIT_TRANSACTION.

(** The handles an interceptor is given, by reference. *)
Record DatabasePool : Type := mkDatabasePool { pool_poolId : string }.
Record DatabasePoolConnection : Type := mkDatabasePoolConnection {
  handle_connectionId : string;
}.

Record PoolContext : Type := mkPoolContext {
  pool_log : Logger;
  poolId : string;
  pool_query : option SqlSqlToken;
}.

Record ConnectionContext : Type := mkConnectionContext {
  connection_connectionId : string;
  connectionType : Connection;
  connection_log : Logger;
  connection_poolId : string;
}.

Record CallSite : Type := mkCallSite {
  columnNumber : nat;
  fileName : option string;
  functionName : option string;
  lineNumber : nat;
}.

Record QueryContext : Type := mkQueryContext {
  connectionId : string;
  log : Logger;
  originalQuery : Query;
  query_poolId : string;
  queryId : QueryId;
  queryInputTime : nat;
  sandbox : list (string * JsValue);
  stackTrace : option (list CallSite);
  transactionId : option string;
}.

(** The value [null], the only value of its type. *)
Inductive Null : Type := null.

(** [T | null | undefined] *)
Inductive Nullish (A : Type) : Type :=
| Defined (a : A)
| IsNull
| IsUndefined.
Arguments Defined {A} a.
Arguments IsNull {A}.
Arguments IsUndefined {A}.

(** [Interceptor]: every hook is optional; [MaybePromise<T>] is taken at its
    settled value; [T | null] is an [option]. *)
Record Interceptor : Type := mkInterceptor {
  afterPoolConnection :
    option (ConnectionContext -> DatabasePoolConnection -> Null);
  afterQueryExecution :
    option (QueryContext -> Query -> QueryResult QueryResultRow -> Null);
  beforePoolConnection :
    option (PoolContext -> Nullish DatabasePool);
  beforePoolConnectionRelease :
    option (ConnectionContext -> DatabasePoolConnection -> Null);
  beforeQueryExecution :
    option (QueryContext -> Query -> option (QueryResult QueryResultRow));
  beforeQueryResult :
    option (QueryContext -> Query -> QueryResult QueryResultRow -> Null);
  beforeTransformQuery :
    option (QueryContext -> Query -> Null);
  queryExecutionError :
    option (QueryContext -> Query -> SlonikError -> list Notice -> Null);
  transformQuery :
    option (QueryContext -> Query -> Query);
  transformRow :
    option (QueryContext -> Query -> QueryResultRow -> list Field -> QueryResultRow);
}.

(** The hooks by name, in the order of the type. *)
Inductive HookName : Type :=
| AfterPoolConnection
| AfterQueryExecution
| BeforePoolConnection
| BeforePoolConnectionRelease
| BeforeQueryExecution
| BeforeQueryResult
| BeforeTransformQuery
| QueryExecutionError
| TransformQuery
| TransformRow.

(** One invocation of a hook, with the arguments its type asks for. *)
Inductive HookCall : Type :=
| CallAfterPoolConnection (c : ConnectionContext) (h : DatabasePoolConnection)
| CallAfterQueryExecution (c : QueryContext) (q : Query) (r : QueryResult QueryResultRow)
| CallBeforePoolConnection (c : PoolContext)
| CallBeforePoolConnectionRelease (c : ConnectionContext) (h : DatabasePoolConnection)
| CallBeforeQueryExecution (c : QueryContext) (q : Query)
| CallBeforeQueryResult (c : QueryContext) (q : Query) (r : QueryResult QueryResultRow)
| CallBeforeTransformQuery (c : QueryContext) (q : Query)
| CallQueryExecutionError (c : QueryContext) (q : Query) (e : SlonikError) (ns : list Notice)
| CallTransformQuery (c : QueryContext) (q : Query)
| CallTransformRow (c : QueryContext) (q : Query) (row : QueryResultRow) (fs : list Field).

Definition hookOf (c : HookCall) : HookName :=
  match c with
  | CallAfterPoolConnection _ _ => AfterPoolConnection
  | CallAfterQueryExecution _ _ _ => AfterQueryExecution
  | CallBeforePoolConnection _ => BeforePoolConnection
  | CallBeforePoolConnectionRelease _ _ => BeforePoolConnectionRelease
  | CallBeforeQueryExecution _ _ => BeforeQueryExecution
  | CallBeforeQueryResult _ _ _ => BeforeQueryResult
  | CallBeforeTransformQuery _ _ => BeforeTransformQuery
  | CallQueryExecutionError _ _ _ _ => QueryExecutionError
  | CallTransformQuery _ _ => TransformQuery
  | CallTransformRow _ _ _ _ => TransformRow
  end.

(** What a hook hands back to the pipeline, as a runtime value. *)
Inductive HookReturn : Type :=
| ReturnsNull
| ReturnsUndefined
| ReturnsPool (p : DatabasePool)
| ReturnsQuery (q : Query)
| ReturnsQueryResult (r : QueryResult QueryResultRow)
| ReturnsRow (row : QueryResultRow).

Definition ofNull (n : Null) : HookReturn :=
  match n with null => ReturnsNull end.

Definition ofNullishPool (p : Nullish DatabasePool) : HookReturn :=
  match p with
  | Defined pool => ReturnsPool pool
  | IsNull => ReturnsNull
  | IsUndefined => ReturnsUndefined
  end.

Definition ofResultOrNull (r : option (QueryResult QueryResultRow)) : HookReturn :=
  match r with
  | Some result => ReturnsQueryResult result
  | None => ReturnsNull
  end.

(** Invoking a hook of an interceptor: [None] when the interceptor does not
    define the hook, otherwise the value the hook returns. *)
Definition callHook (i : Interceptor) (c : HookCall) : option HookReturn :=
  match c with
  | CallAfterPoolConnection ctx h =>
      option_map (fun hook => ofNull (hook ctx h)) (afterPoolConnection i)
  | CallAfterQueryExecution ctx q r =>
      option_map (fun hook => ofNull (hook ctx q r)) (afterQueryExecution i)
  | CallBeforePoolConnection ctx =>
      option_map (fun hook => ofNullishPool (hook ctx)) (beforePoolConnection i)
  | CallBeforePoolConnectionRelease ctx h =>
      option_map (fun hook => ofNull (hook ctx h)) (beforePoolConnectionRelease i)
  | CallBeforeQueryExecution ctx q =>
      option_map (fun hook => ofResultOrNull (hook ctx q)) (beforeQueryExecution i)
  | CallBeforeQueryResult ctx q r =>
      option_map (fun hook => ofNull (hook ctx q r)) (beforeQueryResult i)
  | CallBeforeTransformQuery ctx q =>
      option_map (fun hook => ofNull (hook ctx q)) (beforeTransformQuery i)
  | CallQueryExecutionError ctx q e ns =>
      option_map (fun hook => ofNull (hook ctx q e ns)) (queryExecutionError i)
  | CallTransformQuery ctx q =>
      option_map (fun hook => ReturnsQuery (hook ctx q)) (transformQuery i)
  | CallTransformRow ctx q row fs =>
      option_map (fun hook => ReturnsRow (hook ctx q row fs)) (transformRow i)
  end.

(** The hooks the interface description singles out as returning a value
    the pipeline uses. *)
Definition listedValueHooks : list HookName :=
  [TransformQuery; BeforeQueryExecution; BeforePoolConnection].

Definition HookName_eqb (a b : HookName) : bool :=
  match a, b with
  | AfterPoolConnection, AfterPoolConnection
  | AfterQueryExecution, AfterQueryExecution
  | BeforePoolConnection, BeforePoolConnection
  | BeforePoolConnectionRelease, BeforePoolConnectionRelease
  | BeforeQueryExecution, BeforeQueryExecution
  | BeforeQueryResult, BeforeQueryResult
  | BeforeTransformQuery, BeforeTransformQuery
  | QueryExecutionError, QueryExecutionError
  | TransformQuery, TransformQuery
  | TransformRow, TransformRow => true
  | _, _ => false
  end.

Definition isListed (hooks : list HookName) (h : HookName) : bool :=
  existsb (HookName_eqb h) hooks.

(** An interceptor that defines no hook. *)
Definition emptyInterceptor : Interceptor :=
  mkInterceptor None None None None None None None None None None.

(* ------------------------------------------------------------------ *)
(** * Client configuration ([types.ts], [ClientConfiguration]) *)

(** [number | 'DISABLE_TIMEOUT'], the number in milliseconds. *)
Inductive Timeout : Type :=
| Milliseconds (ms : N)
| DISABLE_TIMEOUT.

Record TypeParser : Type := mkTypeParser {
  parser_name : string;
  parser_parse : string -> JsValue;
}.

(** The driver constructor ([pg]) and the TLS options ([tls]) are external;
    they are kept by name. *)
Definition PgPoolConstructor : Type := string.
Definition TlsConnectionOptions : Type := string.

Record ClientConfiguration : Type := mkClientConfiguration {
  PgPool : option PgPoolConstructor;
  captureStackTrace : bool;
  connectionRetryLimit : nat;
  connectionTimeout : Timeout;
  idleInTransactionSessionTimeout : Timeout;
  idleTimeout : Timeout;
  interceptors : list Interceptor;
  maximumPoolSize : nat;
  queryRetryLimit : nat;
  ssl : option TlsConnectionOptions;
  statementTimeout : Timeout;
  transactionRetryLimit : nat;
  typeParsers : list TypeParser;
}.

(** [ClientConfigurationInput = Partial<ClientConfiguration>] *)
Record ClientConfigurationInput : Type := mkClientConfigurationInput {
  input_PgPool : option PgPoolConstructor;
  input_captureStackTrace : option bool;
  input_connectionRetryLimit : option nat;
  input_connectionTimeout : option Timeout;
  input_idleInTransactionSessionTimeout : option Timeout;
  input_idleTimeout : option Timeout;
  input_interceptors : option (list Interceptor);
  input_maximumPoolSize : option nat;
  input_queryRetryLimit : option nat;
  input_ssl : option TlsConnectionOptions;
  input_statementTimeout : option Timeout;
  input_transactionRetryLimit : option nat;
  input_typeParsers : option (list TypeParser);
}.

(** The property names of [ClientConfiguration], in the order of the type. *)
Definition ClientConfiguration_keys : list string :=
  [ "PgPool"; "captureStackTrace"; "connectionRetryLimit"; "connectionTimeout";
    "idleInTransactionSessionTimeout"; "idleTimeout"; "interceptors";
    "maximumPoolSize"; "queryRetryLimit"; "ssl"; "statementTimeout";
    "transactionRetryLimit"; "typeParsers" ].

(** The properties the type declares optional ([?]). *)
Definition ClientConfiguration_optional : list string := [ "PgPool"; "ssl" ].

(** The properties whose type is [number | 'DISABLE_TIMEOUT']. *)
Definition ClientConfiguration_timeouts : list string :=
  [ "connectionTimeout"; "idleInTransactionSessionTimeout"; "idleTimeout";
    "statementTimeout" ].

(** A default as a doc comment of the type states it. *)
Inductive DefaultValue : Type :=
| DefaultBoolean (b : bool)
| DefaultNumber (n : N)
| DefaultEmptyArray.

(** The [(Default: ...)] notes of the doc comments of [ClientConfiguration];
    [None] where the comment states no default. *)
Definition documentedDefault (key : string) : option DefaultValue :=
  if String.eqb key "captureStackTrace" then Some (DefaultBoolean true)
  else if String.eqb key "connectionRetryLimit" then Some (DefaultNumber 3%N)
  else if String.eqb key "connectionTimeout" then Some (DefaultNumber 5000%N)
  else if String.eqb key "idleInTransactionSessionTimeout" then Some (DefaultNumber 60000%N)
  else if String.eqb key "idleTimeout" then Some (DefaultNumber 5000%N)
  else if String.eqb key "maximumPoolSize" then Some (DefaultNumber 10%N)
  else if String.eqb key "queryRetryLimit" then Some (DefaultNumber 5%N)
  else if String.eqb key "statementTimeout" then Some (DefaultNumber 60000%N)
  else if String.eqb key "transactionRetryLimit" then Some (DefaultNumber 5%N)
  else None.

(** The option set as the interface description enumerates it, each option
    with the default it gives ([ssl] has none). *)
Definition enumeratedOptions : list (string * option DefaultValue) :=
  [ ("captureStackTrace", Some (DefaultBoolean true));
    ("connectionRetryLimit", Some (DefaultNumber 3%N));
    ("connectionTimeout", Some (DefaultNumber 5000%N));
    ("idleInTransactionSessionTimeout", Some (DefaultNumber 60000%N));
    ("idleTimeout", Some (DefaultNumber 5000%N));
    ("interceptors", Some DefaultEmptyArray);
    ("maximumPoolSize", Some (DefaultNumber 10%N));
    ("queryRetryLimit", Some (DefaultNumber 5%N));
    ("ssl", None);
    ("statementTimeout", Some (DefaultNumber 60000%N));
    ("transactionRetryLimit", Some (DefaultNumber 5%N));
    ("typeParsers", Some DefaultEmptyArray) ].

Definition enumeratedKeys : list string := map fst enumeratedOptions.

Definition enumeratedDefault (key : string) : option DefaultValue :=
  match find (fun o => String.eqb (fst o) key) enumeratedOptions with
  | Some (_, d) => d
  | None => None
  end.

Definition orDefault {A : Type} (given : option A) (default : A) : A :=
  match given with
  | Some a => a
  | None => default
  end.

(** Modelled from the spec: the function that completes a
    [ClientConfigurationInput] with the defaults is not under [src/]. The
    numbers and the boolean are those of the doc comments of the type; the
    empty arrays for [interceptors] and [typeParsers] are the spec's. *)
Definition createClientConfiguration (input : ClientConfigurationInput)
  : ClientConfiguration :=
  {| PgPool := input_PgPool input;
     captureStackTrace := orDefault (input_captureStackTrace input) true;
     connectionRetryLimit := orDefault (input_connectionRetryLimit input) 3;
     connectionTimeout := orDefault (input_connectionTimeout input) (Milliseconds 5000%N);
     idleInTransactionSessionTimeout :=
       orDefault (input_idleInTransactionSessionTimeout input) (Milliseconds 60000%N);
     idleTimeout := orDefault (input_idleTimeout input) (Milliseconds 5000%N);
     interceptors := orDefault (input_interceptors input) [];
     maximumPoolSize := orDefault (input_maximumPoolSize input) 10;
     queryRetryLimit := orDefault (input_queryRetryLimit input) 5;
     ssl := input_ssl input;
     statementTimeout := orDefault (input_statementTimeout input) (Milliseconds 60000%N);
     transactionRetryLimit := orDefault (input_transactionRetryLimit input) 5;
     typeParsers := orDefault (input_typeParsers input) [] |}.

Definition noInput : ClientConfigurationInput :=
  mkClientConfigurationInput None None None None None None None None None None
                             None None None.

(* ------------------------------------------------------------------ *)
(** * Connection handles ([types.ts]) *)

(** A handle type by the names of its properties; an intersection type has
    the properties of both sides. *)
Definition CommonQueryMethods_keys : list string :=
  [ "any"; "anyFirst"; "exists"; "many"; "manyFirst"; "maybeOne";
    "maybeOneFirst"; "one"; "oneFirst"; "query"; "transaction" ].

(** [CommonQueryMethods & { stream }] *)
Definition DatabaseTransactionConnection_keys : list string :=
  CommonQueryMethods_keys ++ [ "stream" ].

(** [CommonQueryMethods & { copyFromBinary, stream }] *)
Definition DatabasePoolConnection_keys : list string :=
  CommonQueryMethods_keys ++ [ "copyFromBinary"; "stream" ].

(** [CommonQueryMethods & { configuration, connect, copyFromBinary, end,
    getPoolState, stream }] *)
Definition DatabasePool_keys : list string :=
  CommonQueryMethods_keys
  ++ [ "configuration"; "connect"; "copyFromBinary"; "end"; "getPoolState"; "stream" ].

(** The query methods common to every handle, as the interface description
    lists them. *)
Definition queryMethods : list string :=
  [ "query"; "one"; "oneFirst"; "maybeOne"; "maybeOneFirst"; "many";
    "manyFirst"; "any"; "anyFirst"; "exists" ].

(* ------------------------------------------------------------------ *)
(** * The typed surface ([types.ts]) *)

(** A type argument [T extends MixedRow | PrimitiveValueExpression] of a
    query method, by the side of the union it extends. *)
Inductive TypeArgument : Type :=
| ZodSchemaType (schema : ZodTypeAny)
| RowType (row : string)
| PrimitiveType (kind : JsKind).

Inductive TsType : Type :=
| TArgument (T : TypeArgument)
| TInfer (schema : ZodTypeAny)
| TNever
| TIndexed (row : TsType)
| TReadonlyArray (member : TsType)
| TOrNull (t : TsType)
| TQueryResult (row : TsType)
| TPromise (t : TsType).

(** [T extends ZodTypeAny] *)
Definition extendsZodTypeAny (T : TypeArgument) : bool :=
  match T with
  | ZodSchemaType _ => true
  | _ => false
  end.

(** [T extends MixedRow], [MixedRow = QueryResultRow | ZodTypeAny] *)
Definition extendsMixedRow (T : TypeArgument) : bool :=
  match T with
  | ZodSchemaType _ => true
  | RowType _ => true
  | PrimitiveType _ => false
  end.

(** [z.infer<T>] *)
Definition infer (T : TypeArgument) : TsType :=
  match T with
  | ZodSchemaType schema => TInfer schema
  | _ => TNever
  end.

(** The type of the field [zodObject] of [SqlSqlToken<T>]:
    [T extends ZodTypeAny ? T : never]. *)
Definition zodObjectType (T : TypeArgument) : TsType :=
  if extendsZodTypeAny T then TArgument T else TNever.

(** The argument of the token a query method accepts:
    [SqlSqlToken<T extends MixedRow ? T : Record<string, PrimitiveValueExpression>>]. *)
Definition tokenArgument (T : TypeArgument) : TypeArgument :=
  if extendsMixedRow T then T
  else RowType "Record<string, PrimitiveValueExpression>".

(** [T extends MixedRow ? (T extends ZodTypeAny ? z.infer<T> : T) : T] *)
Definition resultRow (T : TypeArgument) : TsType :=
  if extendsMixedRow T
  then (if extendsZodTypeAny T then infer T else TArgument T)
  else TArgument T.

(** [T extends MixedRow ? (T extends ZodTypeAny ? z.infer<T>[keyof z.infer<T>]
    : T[keyof T]) : T] *)
Definition resultColumn (T : TypeArgument) : TsType :=
  if extendsMixedRow T
  then (if extendsZodTypeAny T then TIndexed (infer T) else TIndexed (TArgument T))
  else TArgument T.

(** The query methods that take a type argument. *)
Inductive TypedQueryMethod : Type :=
| QueryAnyFirstFunction
| QueryAnyFunction
| QueryFunction
| QueryManyFirstFunction
| QueryManyFunction
| QueryMaybeOneFirstFunction
| QueryMaybeOneFunction
| QueryOneFirstFunction
| QueryOneFunction.

(** The return type each method declares. *)
Definition returnType (m : TypedQueryMethod) (T : TypeArgument) : TsType :=
  match m with
  | QueryAnyFirstFunction => TPromise (TReadonlyArray (resultColumn T))
  | QueryAnyFunction => TPromise (TReadonlyArray (resultRow T))
  | QueryFunction => TPromise (TQueryResult (resultRow T))
  | QueryManyFirstFunction => TPromise (TReadonlyArray (resultColumn T))
  | QueryManyFunction => TPromise (TReadonlyArray (resultRow T))
  | QueryMaybeOneFirstFunction => TPromise (TOrNull (resultColumn T))
  | QueryMaybeOneFunction => TPromise (TOrNull (resultRow T))
  | QueryOneFirstFunction => TPromise (resultColumn T)
  | QueryOneFunction => TPromise (resultRow T)
  end.

(** The row type inside a return type. *)
Fixpoint rowTypeOf (t : TsType) : TsType :=
  match t with
  | TIndexed row => rowTypeOf row
  | TReadonlyArray member => rowTypeOf member
  | TOrNull t' => rowTypeOf t'
  | TQueryResult row => rowTypeOf row
  | TPromise t' => rowTypeOf t'
  | _ => t
  end.

(** [type: <Y extends ZodTypeAny>(zodObject: Y) => ... => SqlSqlToken<Y>]:
    the argument of the token the builder produces, when [Y] satisfies the
    bound. *)
Definition typeCombinator (Y : TypeArgument) : option TypeArgument :=
  if extendsZodTypeAny Y then Some Y else None.

(* ------------------------------------------------------------------ *)
(** * Retries *)

(** The [code] of a thrown error: the SQLSTATE when PostgreSQL raised it. *)
Definition ErrorCode : Type := option string.

(** SQLSTATE class 40, transaction rollback. *)
Definition isTransactionRollback (code : ErrorCode) : bool :=
  match code with
  | Some sqlstate => String.prefix "40" sqlstate
  | None => false
  end.

(** A settled promise. *)
Inductive Settled (A : Type) : Type :=
| Resolved (a : A)
| Rejected (code : ErrorCode).
Arguments Resolved {A} a.
Arguments Rejected {A} code.

(** [None] for success, the error's code for a failure. *)
Definition failureOf {A : Type} (s : Settled A) : option ErrorCode :=
  match s with
  | Resolved _ => None
  | Rejected code => Some code
  end.

(** The pinned driver connection: how the driver answers its n-th [execute]
    call, and the calls made so far, each with its failure if it failed. *)
Record PgPoolClient : Type := mkPgPoolClient {
  respond : nat -> Query -> Settled (QueryResult QueryResultRow);
  executed : list (Query * option ErrorCode);
}.

Definition execute (connection : PgPoolClient) (q : Query)
  : Settled (QueryResult QueryResultRow) * PgPoolClient :=
  let outcome := respond connection (List.length (executed connection)) q in
  (outcome,
   mkPgPoolClient (respond connection)
                  (executed connection ++ [(q, failureOf outcome)])).



(** [TransactionFunction<T>]: the handler runs on the pinned connection and
    settles. *)
Definition TransactionFunction (T : Type) : Type :=
  PgPoolClient -> Settled T * PgPoolClient.

Definition statement (text : string) : Query := mkQuery [Text text] [].

(** What a top-level transaction leaves behind: how it settled, the pinned
    connection, and the outcome of every invocation of the handler. *)
Record TransactionRun (T : Type) : Type := mkTransactionRun {
  settled : Settled T;
  pinned : PgPoolClient;
  attempts : list (option ErrorCode);
}.
Arguments mkTransactionRun {T}.
Arguments settled {T}.
Arguments pinned {T}.
Arguments attempts {T}.

(** Modelled from the spec: one attempt of a top-level transaction.
    [START TRANSACTION], the handler, then [COMMIT] when the handler
    resolves and [ROLLBACK] when it rejects. The spec does not say what a
    failing control statement leads to; they are issued and taken to
    succeed. *)
Definition attemptTransaction {T : Type} (handler : TransactionFunction T)
  (connection : PgPoolClient) : Settled T * PgPoolClient :=
  let started := snd (execute connection (statement "START TRANSACTION")) in
  let (outcome, connection') := handler started in
  match outcome with
  | Resolved a => (Resolved a, snd (execute connection' (statement "COMMIT")))
  | Rejected code => (Rejected code, snd (execute connection' (statement "ROLLBACK")))
  end.

(** Modelled from the spec: the retry of a top-level transaction is not
    under [src/] (only the type [InternalTransactionFunction] is). A handler
    that fails with a class 40 error is invoked afresh on the same pinned
    connection while retries remain; any other error surfaces. *)
Fixpoint retryTransaction {T : Type} (remainingRetries : nat)
  (handler : TransactionFunction T) (connection : PgPoolClient)
  (made : list (option ErrorCode)) : TransactionRun T :=
  let (outcome, connection') := attemptTransaction handler connection in
  let made' := made ++ [failureOf outcome] in
  match outcome with
  | Resolved a => mkTransactionRun (Resolved a) connection' made'
  | Rejected code =>
      if isTransactionRollback code then
        match remainingRetries with
        | 0 => mkTransactionRun (Rejected code) connection' made'
        | S n => retryTransaction n handler connection' made'
        end
      else mkTransactionRun (Rejected code) connection' made'
  end.

Definition transaction {T : Type} (clientConfiguration : ClientConfiguration)
  (handler : TransactionFunction T) (connection : PgPoolClient)
  : TransactionRun T :=
  retryTransaction (transactionRetryLimit clientConfiguration) handler connection [].


(* ------------------------------------------------------------------ *)
(** * Sample inputs *)

Definition anySchema : ZodTypeAny := mkZod "any" (fun row => Some row).

(** A serialiser that refuses every value. *)
Definition refuseJson (v : SerializableValue) : option string := None.

Definition sampleGlue : SqlSqlToken :=
  mkSqlSqlToken [Text " AND "] [] anySchema.

Definition sampleA : SqlSqlToken :=
  mkSqlSqlToken [Text "a="; Placeholder 1] [PNumber (num 1)] anySchema.

Definition sampleB : SqlSqlToken :=
  mkSqlSqlToken [Text "b="; Placeholder 1] [PNumber (num 2)] anySchema.

(** [sql.join([sql`a=${1}`, sql`b=${2}`], sql` AND `)] *)
Definition sampleList : SqlToken :=
  ListToken sampleGlue [Token (SqlTokenOf sampleA); Token (SqlTokenOf sampleB)].

Definition sampleListQuery : Query :=
  mkQuery [Text "a="; Placeholder 1; Text " AND "; Text "b="; Placeholder 2]
          [PNumber (num 1); PNumber (num 2)].

(** A list one of whose members is NaN. *)
Definition sampleNaN : SqlToken :=
  ListToken sampleGlue [Token (SqlTokenOf sampleA); Primitive (PNumber NaN)].

(** [sql.unnest([[1, "x"], [2, "y"]], ["int4", "text"])] *)
Definition sampleUnnest : SqlToken :=
  UnnestToken [ColumnName "int4"; ColumnName "text"]
              [ [Primitive (PNumber (num 1)); Primitive (PString "x")];
                [Primitive (PNumber (num 2)); Primitive (PString "y")] ].

Definition sampleRow : QueryResultRow := [("id", PNumber (num 1))].

Definition resultOf (rs : list QueryResultRow) : QueryResult QueryResultRow :=
  mkQueryResult SELECT [mkField 23 "id"] [] (List.length rs) rs.

(** A pipeline that answers every query with the given rows. *)
Definition answering (rs : list QueryResultRow) (slonikSql : SqlSqlToken)
  : Completion (QueryResult QueryResultRow) :=
  Return (resultOf rs).

Definition sampleQueryContext : QueryContext :=
  mkQueryContext "connection-1" tt sampleListQuery "pool-1" "query-1" 0 [] None None.

(** An interceptor whose only hook returns the row it is given. *)
Definition rowInterceptor : Interceptor :=
  mkInterceptor None None None None None None None None None
                (Some (fun _ _ row _ => row)).

(** An interceptor whose only hook observes the query before it is
    transformed. *)
Definition observingInterceptor : Interceptor :=
  mkInterceptor None None None None None None (Some (fun _ _ => null))
                None None None.

(** The value of a configuration under a key, in the vocabulary of the
    documented defaults: a boolean, a number, or an empty array. *)
Definition timeoutValue (t : Timeout) : option DefaultValue :=
  match t with
  | Milliseconds ms => Some (DefaultNumber ms)
  | DISABLE_TIMEOUT => None
  end.

Definition arrayValue {A : Type} (l : list A) : option DefaultValue :=
  match l with
  | [] => Some DefaultEmptyArray
  | _ :: _ => None
  end.

Definition valueOf (c : ClientConfiguration) (key : string) : option DefaultValue :=
  if String.eqb key "captureStackTrace" then Some (DefaultBoolean (captureStackTrace c))
  else if String.eqb key "connectionRetryLimit"
       then Some (DefaultNumber (N.of_nat (connectionRetryLimit c)))
  else if String.eqb key "connectionTimeout" then timeoutValue (connectionTimeout c)
  else if String.eqb key "idleInTransactionSessionTimeout"
       then timeoutValue (idleInTransactionSessionTimeout c)
  else if String.eqb key "idleTimeout" then timeoutValue (idleTimeout c)
  else if String.eqb key "interceptors" then arrayValue (interceptors c)
  else if String.eqb key "maximumPoolSize"
       then Some (DefaultNumber (N.of_nat (maximumPoolSize c)))
  else if String.eqb key "queryRetryLimit"
       then Some (DefaultNumber (N.of_nat (queryRetryLimit c)))
  else if String.eqb key "statementTimeout" then timeoutValue (statementTimeout c)
  else if String.eqb key "transactionRetryLimit"
       then Some (DefaultNumber (N.of_nat (transactionRetryLimit c)))
  else if String.eqb key "typeParsers" then arrayValue (typeParsers c)
  else None.

(** An input that sets every timeout to [DISABLE_TIMEOUT]. *)
Definition timeoutsDisabled : ClientConfigurationInput :=
  mkClientConfigurationInput None None None (Some DISABLE_TIMEOUT)
                             (Some DISABLE_TIMEOUT) (Some DISABLE_TIMEOUT) None
                             None None None (Some DISABLE_TIMEOUT) None None.

(** A fresh driver connection that rejects its second [execute] call with
    the given SQLSTATE and resolves every other call. *)
Definition rejectingSecond (sqlstate : string) : PgPoolClient :=
  mkPgPoolClient
    (fun n _ => if Nat.eqb n 1 then Rejected (Some sqlstate)
                else Resolved (resultOf [sampleRow]))
    [].

(** The second call fails with a serialization failure (class 40). *)
Definition failingOnce : PgPoolClient := rejectingSecond "40001".


(** A handler that runs one query and resolves with its row count. *)
Definition countingHandler : TransactionFunction nat :=
  fun connection =>
    let (outcome, connection') := execute connection (statement "SELECT 1") in
    match outcome with
    | Resolved result => (Resolved (rowCount result), connection')
    | Rejected code => (Rejected code, connection')
    end.

(* ------------------------------------------------------------------ *)
(** * Handle types with the types of their properties ([types.ts]) *)

(** The type a property of a handle is declared with. *)
Inductive PropertyType : Type :=
| PropQueryMethod (m : TypedQueryMethod)
| PropQueryExistsFunction
| PropTransaction
| PropStreamFunction
| PropQueryCopyFromBinaryFunction
| PropClientConfiguration
| PropConnect
| PropEnd
| PropGetPoolState.

Definition HandleType : Type := list (string * PropertyType).

(** [CommonQueryMethods] *)
Definition CommonQueryMethods_type : HandleType :=
  [ ("any", PropQueryMethod QueryAnyFunction);
    ("anyFirst", PropQueryMethod QueryAnyFirstFunction);
    ("exists", PropQueryExistsFunction);
    ("many", PropQueryMethod QueryManyFunction);
    ("manyFirst", PropQueryMethod QueryManyFirstFunction);
    ("maybeOne", PropQueryMethod QueryMaybeOneFunction);
    ("maybeOneFirst", PropQueryMethod QueryMaybeOneFirstFunction);
    ("one", PropQueryMethod QueryOneFunction);
    ("oneFirst", PropQueryMethod QueryOneFirstFunction);
    ("query", PropQueryMethod QueryFunction);
    ("transaction", PropTransaction) ].

(** [DatabaseTransactionConnection = CommonQueryMethods & { stream }] *)
Definition DatabaseTransactionConnection_type : HandleType :=
  CommonQueryMethods_type ++ [ ("stream", PropStreamFunction) ].

(** [DatabasePoolConnection = CommonQueryMethods & { copyFromBinary, stream }] *)
Definition DatabasePoolConnection_type : HandleType :=
  CommonQueryMethods_type
  ++ [ ("copyFromBinary", PropQueryCopyFromBinaryFunction);
       ("stream", PropStreamFunction) ].

(** [DatabasePool = CommonQueryMethods & { configuration, connect,
    copyFromBinary, end, getPoolState, stream }] *)
Definition DatabasePool_type : HandleType :=
  CommonQueryMethods_type
  ++ [ ("configuration", PropClientConfiguration);
       ("connect", PropConnect);
       ("copyFromBinary", PropQueryCopyFromBinaryFunction);
       ("end", PropEnd);
       ("getPoolState", PropGetPoolState);
       ("stream", PropStreamFunction) ].

(** [DatabaseConnection = DatabasePool | DatabasePoolConnection] *)
Definition DatabaseConnection_members : list HandleType :=
  [ DatabasePool_type; DatabasePoolConnection_type ].

(** The declared type of a property of a handle, if the handle has it. *)
Definition propertyType (handle : HandleType) (key : string) : option PropertyType :=
  match find (fun p => String.eqb (fst p) key) handle with
  | Some (_, t) => Some t
  | None => None
  end.

(* ------------------------------------------------------------------ *)
(** * Serializable values as runtime values ([types.ts]) *)

(** Membership of a runtime value in the union type [SerializableValue]:
    boolean, number, string, array of serializable values, object whose
    properties are serializable or undefined, null. *)
Fixpoint isSerializableValue (v : JsValue) : bool :=
  match v with
  | JsBoolean _ => true
  | JsNumber _ => true
  | JsString _ => true
  | JsArray items => forallb isSerializableValue items
  | JsObject props =>
      forallb (fun kv => match kv with
                         | (_, JsUndefined) => true
                         | (_, x) => isSerializableValue x
                         end) props
  | JsNull => true
  | JsBuffer _ => false
  | JsUndefined => false
  | JsFunction _ => false
  end.

(** A buffer somewhere in an array nest. *)
Fixpoint containsBuffer (v : JsValue) : bool :=
  match v with
  | JsBuffer _ => true
  | JsArray items => existsb containsBuffer items
  | _ => false
  end.

(** An object somewhere in an array nest. *)
Fixpoint containsObject (v : JsValue) : bool :=
  match v with
  | JsObject _ => true
  | JsArray items => existsb containsObject items
  | _ => false
  end.

(** A [QueryResultRow] as the object it is at run time. *)
Definition rowToJsValue (row : QueryResultRow) : JsValue :=
  JsObject (map (fun kv => (fst kv, toJsValue (snd kv))) row).

(* ------------------------------------------------------------------ *)
(** * Relations between the typed query methods ([types.ts]) *)

(** The [...First] method of a query method, where the type declares one. *)
Definition firstVariant (m : TypedQueryMethod) : option TypedQueryMethod :=
  match m with
  | QueryAnyFunction => Some QueryAnyFirstFunction
  | QueryManyFunction => Some QueryManyFirstFunction
  | QueryMaybeOneFunction => Some QueryMaybeOneFirstFunction
  | QueryOneFunction => Some QueryOneFirstFunction
  | _ => None
  end.

(** [X[keyof X]] taken at the row inside a return type. *)
Fixpoint indexRow (t : TsType) : TsType :=
  match t with
  | TReadonlyArray member => TReadonlyArray (indexRow member)
  | TOrNull t' => TOrNull (indexRow t')
  | TQueryResult row => TQueryResult (indexRow row)
  | TPromise t' => TPromise (indexRow t')
  | row => TIndexed row
  end.


(* ------------------------------------------------------------------ *)
(** * Signatures ([types.ts]) *)

Inductive ArgumentType : Type :=
| ArgLogger
| ArgPgPoolClient
| ArgClientConfiguration
| ArgTaggedTemplateLiteralInvocation
| ArgSqlSqlToken
| ArgPrimitiveValues
| ArgQueryId
| ArgStreamHandler
| ArgQueryStreamConfig
| ArgTupleList
| ArgTypeNameIdentifiers
| ArgTransactionFunction
| ArgNumber.

Record Argument : Type := mkArgument {
  argumentName : string;
  argumentType : ArgumentType;
  optional : bool;
}.

Definition Signature : Type := list Argument.

(** [(sql: SqlSqlToken<...>, values?: PrimitiveValueExpression[])], the
    parameters of every typed query method. *)
Definition TypedQueryMethod_signature : Signature :=
  [ mkArgument "sql" ArgSqlSqlToken false;
    mkArgument "values" ArgPrimitiveValues true ].

(** [QueryExistsFunction] *)
Definition QueryExistsFunction_signature : Signature :=
  [ mkArgument "sql" ArgTaggedTemplateLiteralInvocation false;
    mkArgument "values" ArgPrimitiveValues true ].

(** [StreamFunction] *)
Definition StreamFunction_signature : Signature :=
  [ mkArgument "sql" ArgTaggedTemplateLiteralInvocation false;
    mkArgument "streamHandler" ArgStreamHandler false;
    mkArgument "config" ArgQueryStreamConfig true ].

(** [QueryCopyFromBinaryFunction] *)
Definition QueryCopyFromBinaryFunction_signature : Signature :=
  [ mkArgument "streamQuery" ArgTaggedTemplateLiteralInvocation false;
    mkArgument "tupleList" ArgTupleList false;
    mkArgument "columnTypes" ArgTypeNameIdentifiers false ].

(** [CommonQueryMethods.transaction] *)
Definition transaction_signature : Signature :=
  [ mkArgument "handler" ArgTransactionFunction false;
    mkArgument "transactionRetryLimit" ArgNumber true ].

(** [InternalQueryMethod] *)
Definition InternalQueryMethod_signature : Signature :=
  [ mkArgument "log" ArgLogger false;
    mkArgument "connection" ArgPgPoolClient false;
    mkArgument "clientConfiguration" ArgClientConfiguration false;
    mkArgument "slonikSql" ArgTaggedTemplateLiteralInvocation false;
    mkArgument "uid" ArgQueryId true ].

(** [InternalCopyFromBinaryFunction] *)
Definition InternalCopyFromBinaryFunction_signature : Signature :=
  [ mkArgument "log" ArgLogger false;
    mkArgument "connection" ArgPgPoolClient false;
    mkArgument "clientConfiguration" ArgClientConfiguration false;
    mkArgument "slonikSql" ArgTaggedTemplateLiteralInvocation false;
    mkArgument "tupleList" ArgTupleList false;
    mkArgument "columnTypes" ArgTypeNameIdentifiers false ].

(** [InternalStreamFunction] *)
Definition InternalStreamFunction_signature : Signature :=
  [ mkArgument "log" ArgLogger false;
    mkArgument "connection" ArgPgPoolClient false;
    mkArgument "clientConfiguration" ArgClientConfiguration false;
    mkArgument "slonikSql" ArgTaggedTemplateLiteralInvocation false;
    mkArgument "streamHandler" ArgStreamHandler false;
    mkArgument "uid" ArgQueryId true;
    mkArgument "config" ArgQueryStreamConfig true ].

(** [InternalTransactionFunction] *)
Definition InternalTransactionFunction_signature : Signature :=
  [ mkArgument "log" ArgLogger false;
    mkArgument "connection" ArgPgPoolClient false;
    mkArgument "clientConfiguration" ArgClientConfiguration false;
    mkArgument "handler" ArgTransactionFunction false;
    mkArgument "transactionRetryLimit" ArgNumber true ].

(** [InternalNestedTransactionFunction] *)
Definition InternalNestedTransactionFunction_signature : Signature :=
  [ mkArgument "log" ArgLogger false;
    mkArgument "connection" ArgPgPoolClient false;
    mkArgument "clientConfiguration" ArgClientConfiguration false;
    mkArgument "handler" ArgTransactionFunction false;
    mkArgument "transactionDepth" ArgNumber false;
    mkArgument "transactionRetryLimit" ArgNumber true ].

(** The internal functions, each beside the public method it backs. *)
Definition internalFunctions : list (Signature * Signature) :=
  [ (StreamFunction_signature, InternalStreamFunction_signature);
    (QueryCopyFromBinaryFunction_signature, InternalCopyFromBinaryFunction_signature);
    (transaction_signature, InternalTransactionFunction_signature);
    (transaction_signature, InternalNestedTransactionFunction_signature) ].

(** What a caller sees of an argument: its type and whether it may be left
    out. *)
Definition shape (a : Argument) : ArgumentType * bool :=
  (argumentType a, optional a).

(** The arguments an internal function has in addition to the public ones
    and to the three it starts with. *)
Definition internalOnly (a : Argument) : bool :=
  String.eqb (argumentName a) "uid" || String.eqb (argumentName a) "transactionDepth".

Definition publicPart (internal : Signature) : Signature :=
  filter (fun a => negb (internalOnly a)) (skipn 3 internal).

(* ------------------------------------------------------------------ *)
(** * The tagged template and the tokens it builds ([types.ts]) *)

(** The members of the union [SqlToken], by their [type] tag. *)
Inductive TokenKind : Type :=
| ArrayKind
| BinaryKind
| IdentifierKind
| JsonBinaryKind
| JsonKind
| ListKind
| SqlKind
| UnnestKind.

Definition tokenKind (t : SqlToken) : TokenKind :=
  match t with
  | ArrayToken _ _ => ArrayKind
  | BinaryToken _ => BinaryKind
  | IdentifierToken _ => IdentifierKind
  | JsonBinaryToken _ => JsonBinaryKind
  | JsonToken _ => JsonKind
  | ListToken _ _ => ListKind
  | SqlTokenOf _ => SqlKind
  | UnnestToken _ _ => UnnestKind
  end.

(** [SqlTaggedTemplate]: the call signature (under the name [sql]) and the
    methods, each with the kind of token its declared result is. *)
Definition SqlTaggedTemplate_members : list (string * TokenKind) :=
  [ ("sql", SqlKind);
    ("array", ArrayKind);
    ("binary", BinaryKind);
    ("identifier", IdentifierKind);
    ("join", ListKind);
    ("json", JsonKind);
    ("jsonb", JsonBinaryKind);
    ("literalValue", SqlKind);
    ("type", SqlKind);
    ("unnest", UnnestKind) ].

(* ================================================================== *)
(** * Properties *)

Lemma bind_Return {A B : Type} (c : Completion A) (k : A -> Completion B) (b : B) :
  bind c k = Return b -> exists a, c = Return a /\ k a = Return b.
Proof.
  destruct c as [a|e]; simpl; intros H; [eauto | discriminate].
Qed.

Ltac bind_inv H :=
  let a := fresh "f" in
  let Ha := fresh "Hf" in
  apply bind_Return in H; destruct H as (a & Ha & H).

(** An induction principle that reaches the tokens nested in a list. *)
Section SqlToken_members_induction.
Variable P : SqlToken -> Prop.
Hypothesis HArray : forall mt vs, P (ArrayToken mt vs).
Hypothesis HBinary : forall d, P (BinaryToken d).
Hypothesis HIdentifier : forall ns, P (IdentifierToken ns).
Hypothesis HJsonBinary : forall v, P (JsonBinaryToken v).
Hypothesis HJson : forall v, P (JsonToken v).
Hypothesis HList : forall glue members,
    Forall (fun m => match m with Primitive _ => True | Token t => P t end) members ->
    P (ListToken glue members).
Hypothesis HSql : forall raw, P (SqlTokenOf raw).
Hypothesis HUnnest : forall cols tuples, P (UnnestToken cols tuples).

Lemma SqlToken_members_ind : forall t, P t.
Proof.
  fix IH 1.
  intros [mt vs|d|ns|v|v|glue members|raw|cols tuples];
    [apply HArray | apply HBinary | apply HIdentifier | apply HJsonBinary
    | apply HJson | apply HList | apply HSql | apply HUnnest].
  induction members as [|m rest IHrest]; constructor.
  - destruct m as [p|t]; [exact I | apply IH].
  - exact IHrest.
Qed.
End SqlToken_members_induction.

(** ** Placeholders of composed text *)

Lemma placeholders_app (a b : Sql) :
  placeholders (a ++ b) = placeholders a ++ placeholders b.
Proof.
  induction a as [|[s|n] a IH]; simpl; [reflexivity | exact IH | now rewrite IH].
Qed.

Lemma placeholders_shift (offset : nat) (s : Sql) :
  placeholders (shift offset s) = map (Nat.add offset) (placeholders s).
Proof.
  induction s as [|[t|n] s IH]; simpl; [reflexivity | exact IH | now rewrite IH].
Qed.

Lemma contiguous_Numbered (s : Sql) (n : nat) :
  contiguous s n = true -> Numbered s 0 n.
Proof.
  unfold contiguous, Numbered. rewrite andb_true_iff, !forallb_forall.
  intros [Hin Hall] k. split.
  - intros Hk. apply Hin in Hk. apply andb_true_iff in Hk as [H1 H2].
    apply Nat.leb_le in H1, H2. lia.
  - intros Hk. assert (Hs : In k (seq 1 n)) by (apply in_seq; lia).
    apply Hall in Hs. apply existsb_exists in Hs as (x & Hx & Heq).
    apply Nat.eqb_eq in Heq. now subst.
Qed.

Lemma Numbered_shift (s : Sql) (offset n : nat) :
  Numbered s 0 n -> Numbered (shift offset s) offset n.
Proof.
  unfold Numbered. intros H k. rewrite placeholders_shift, in_map_iff. split.
  - intros (x & <- & Hx). apply H in Hx. lia.
  - intros Hk. exists (k - offset). split; [lia | apply H; lia].
Qed.

Lemma Numbered_app (a b : Sql) (offset n m : nat) :
  Numbered a offset n -> Numbered b (offset + n) m ->
  Numbered (a ++ b) offset (n + m).
Proof.
  unfold Numbered. intros Ha Hb k. rewrite placeholders_app, in_app_iff, Ha, Hb. lia.
Qed.

Lemma Numbered_nil (offset : nat) : Numbered [] offset 0.
Proof. intros k; simpl; lia. Qed.

Lemma Numbered_text (t : string) (s : Sql) (offset n : nat) :
  Numbered s offset n -> Numbered (Text t :: s) offset n.
Proof. intros H k. simpl. apply H. Qed.

Lemma Numbered_one (offset : nat) : Numbered [Placeholder (offset + 1)] offset 1.
Proof. intros k; simpl; lia. Qed.

Lemma Numbered_placeholder (s : Sql) (offset n : nat) :
  Numbered s (offset + 1) n -> Numbered (Placeholder (offset + 1) :: s) offset (S n).
Proof.
  intros H. apply (Numbered_app [Placeholder (offset + 1)] s offset 1 n);
    [apply Numbered_one | exact H].
Qed.

Lemma Numbered_empty_iff (s : Sql) (offset : nat) :
  Numbered s offset 0 <-> placeholders s = [].
Proof.
  split.
  - intros H. destruct (placeholders s) as [|k l] eqn:E; [reflexivity|].
    exfalso. specialize (H k). rewrite E in H. simpl in H.
    assert (offset < k <= offset + 0) by (apply H; now left). lia.
  - intros E k. rewrite E. simpl. lia.
Qed.

Lemma Numbered_move (s : Sql) (offset offset' : nat) :
  Numbered s offset 0 -> Numbered s offset' 0.
Proof. rewrite !Numbered_empty_iff. auto. Qed.

Lemma Numbered_contiguous (s : Sql) (n : nat) :
  Numbered s 0 n -> contiguous s n = true.
Proof.
  unfold contiguous, Numbered. intros H.
  rewrite andb_true_iff, !forallb_forall. split.
  - intros k Hk. apply H in Hk. apply andb_true_iff.
    split; apply Nat.leb_le; lia.
  - intros k Hk. apply in_seq in Hk. apply existsb_exists.
    exists k. split; [apply H; lia | apply Nat.eqb_refl].
Qed.

(** ** Unnest: columns and tuples *)

Lemma renderColumnType_Numbered (c : ColumnType) (t : Sql) (offset : nat) :
  validColumnType c = true -> renderColumnType c = Some t -> Numbered t offset 0.
Proof.
  destruct c as [name|path|fragment]; simpl; intros Hv Hr.
  - injection Hr as <-. apply Numbered_empty_iff. reflexivity.
  - injection Hr as <-. apply Numbered_empty_iff. reflexivity.
  - unfold validRaw in Hv. destruct (token_values fragment); [|discriminate].
    injection Hr as <-. apply contiguous_Numbered in Hv.
    apply Numbered_empty_iff. rewrite placeholders_app. simpl.
    apply Numbered_empty_iff in Hv. rewrite Hv. reflexivity.
Qed.

Lemma renderColumns_Numbered (cols : list ColumnType) :
  forallb validColumnType cols = true ->
  forall offset s, renderColumns cols offset = Some s ->
                   Numbered s offset (List.length cols).
Proof.
  induction cols as [|c rest IH]; simpl; intros Hv offset s Hr.
  - injection Hr as <-. apply Numbered_nil.
  - apply andb_true_iff in Hv as [Hc Hrest].
    destruct (renderColumnType c) as [t|] eqn:Et; [|discriminate].
    destruct (renderColumns rest (S offset)) as [r|] eqn:Er; [|discriminate].
    injection Hr as <-.
    apply (renderColumnType_Numbered c t (offset + 1) Hc) in Et.
    specialize (IH Hrest _ _ Er).
    apply Numbered_placeholder, Numbered_text.
    apply (Numbered_app _ _ (offset + 1) 0 (List.length rest)); [exact Et|].
    replace (offset + 1 + 0) with (S offset) by lia.
    destruct rest; [exact IH | apply Numbered_text; exact IH].
Qed.

Lemma transpose_length (width : nat) (rows : list (list PrimitiveValueExpression)) :
  List.length (transpose width rows) = width.
Proof. unfold transpose. now rewrite length_map, length_seq. Qed.

Lemma primitivesOf_finite (vs : list ValueExpression) :
  forall ps, primitivesOf vs = Some ps -> forallb finitePrimitive ps = true.
Proof.
  induction vs as [|v rest IH]; simpl; intros ps H.
  - now injection H as <-.
  - destruct v as [p|t]; simpl in H; [|discriminate].
    destruct (finitePrimitive p) eqn:Ep; [|discriminate].
    destruct (primitivesOf rest) as [ps'|]; [|discriminate].
    injection H as <-. simpl. rewrite Ep. now apply IH.
Qed.

Lemma checkTuples_finite (width : nat) (tuples : list (list ValueExpression)) :
  forall rows, checkTuples width tuples = Some rows ->
               Forall (fun row => forallb finitePrimitive row = true) rows.
Proof.
  induction tuples as [|t rest IH]; simpl; intros rows H.
  - injection H as <-. constructor.
  - unfold checkTuple in H.
    destruct (Nat.eqb (List.length t) width); [|discriminate].
    destruct (primitivesOf t) as [row|] eqn:Er; [|discriminate].
    destruct (checkTuples width rest) as [rows'|]; [|discriminate].
    injection H as <-. constructor; [eapply primitivesOf_finite; eauto | now apply IH].
Qed.

Lemma nth_finite (row : list PrimitiveValueExpression) (i : nat) :
  forallb finitePrimitive row = true -> finitePrimitive (nth i row PNull) = true.
Proof.
  revert i. induction row as [|p row IH]; intros [|i]; simpl; auto.
  - intros H. now apply andb_true_iff in H as [H _].
  - intros H. apply andb_true_iff in H as [_ H]. now apply IH.
Qed.

Lemma transpose_finite (width : nat) (rows : list (list PrimitiveValueExpression)) :
  Forall (fun row => forallb finitePrimitive row = true) rows ->
  forallb finitePrimitive (transpose width rows) = true.
Proof.
  intros H. unfold transpose. apply forallb_forall. intros v Hv.
  apply in_map_iff in Hv as (i & <- & _). unfold column. simpl.
  apply forallb_forall. intros x Hx. apply in_map_iff in Hx as (row & <- & Hrow).
  apply nth_finite. rewrite Forall_forall in H. now apply H.
Qed.

(** ** The interpreter numbers its placeholders contiguously *)

Section InterpreterProperties.
Variable serialize : SerializableValue -> option string.

Lemma interpretRaw_ok (raw : SqlSqlToken) (offset : nat) :
  FragmentOk (validRaw raw = true) (interpretRaw raw offset) offset.
Proof.
  unfold validRaw, interpretRaw, FragmentOk. intros f H.
  destruct (forallb finitePrimitive (token_values raw)) eqn:Ef; [|discriminate].
  injection H as <-. simpl. split; [|exact Ef].
  intros Hv. apply Numbered_shift, contiguous_Numbered, Hv.
Qed.

Lemma interpretPrimitive_ok (V : Prop) (p : PrimitiveValueExpression)
  (offset : nat) :
  FragmentOk V (interpretPrimitive p offset) offset.
Proof.
  unfold interpretPrimitive, FragmentOk. intros f H.
  destruct (finitePrimitive p) eqn:Ep; [|discriminate].
  injection H as <-. simpl. rewrite Ep.
  split; [intros _; apply Numbered_one | reflexivity].
Qed.

Lemma interpretJson_ok (V : Prop) (v : SerializableValue) (cast : string)
  (offset : nat) :
  FragmentOk V (interpretJson serialize v cast offset) offset.
Proof.
  unfold interpretJson, FragmentOk. intros f H.
  destruct (serialize v); [|discriminate]. injection H as <-. simpl.
  split; [|reflexivity]. intros _ k; simpl; lia.
Qed.

Lemma interpretArray_ok (mt : MemberType) (vs : list PrimitiveValueExpression)
  (offset : nat) :
  FragmentOk (validToken (ArrayToken mt vs) = true)
             (interpretArray mt vs offset) offset.
Proof.
  unfold interpretArray, FragmentOk. intros f H.
  destruct (forallb finitePrimitive vs) eqn:Ef; [|discriminate].
  destruct mt as [t|name].
  - destruct t; try discriminate.
    bind_inv H. injection H as <-. simpl.
    destruct (interpretRaw_ok raw (offset + 1) _ Hf) as [Hn Hfin].
    rewrite Ef, Hfin. split; [|reflexivity]. intros Hv.
    apply Numbered_placeholder, Numbered_text.
    replace (List.length (values f0)) with (List.length (values f0) + 0) by lia.
    apply Numbered_app; [now apply Hn|]. apply Numbered_empty_iff. reflexivity.
  - injection H as <-. simpl. rewrite Ef. split; [|reflexivity].
    intros _ k; simpl; lia.
Qed.

Lemma interpretUnnest_ok (cols : list ColumnType)
  (tuples : list (list ValueExpression)) (offset : nat) :
  FragmentOk (forallb validColumnType cols = true)
             (interpretUnnest cols tuples offset) offset.
Proof.
  unfold interpretUnnest, FragmentOk. intros f H.
  destruct (checkTuples (List.length cols) tuples) as [rows|] eqn:Et; [|discriminate].
  destruct (renderColumns cols offset) as [s|] eqn:Es; [|discriminate].
  injection H as <-. simpl. rewrite transpose_length. split.
  - intros Hv. apply Numbered_text.
    replace (List.length cols) with (List.length cols + 0) by lia.
    apply Numbered_app; [now apply renderColumns_Numbered|].
    apply Numbered_empty_iff. reflexivity.
  - eapply transpose_finite, checkTuples_finite, Et.
Qed.

Lemma interpretMembers_ok
  (member : ValueExpression -> nat -> Completion SqlFragment) (glueSql : Sql)
  (ms : list ValueExpression) :
  Forall (fun m => forall offset,
              FragmentOk (validValue m = true) (member m offset) offset) ms ->
  forall offset,
    FragmentOk (placeholders glueSql = [] /\ forallb validValue ms = true)
               (interpretMembers member glueSql ms offset) offset.
Proof.
  intros Hms. induction Hms as [|m rest Hm Hrest IH]; intros offset f H.
  - injection H as <-. simpl. split; [intros _; apply Numbered_nil | reflexivity].
  - simpl in H. bind_inv H. bind_inv H. injection H as <-. simpl.
    destruct (Hm _ _ Hf) as [Hn0 Hfin0].
    destruct (IH _ _ Hf0) as [Hn1 Hfin1].
    rewrite length_app, forallb_app, Hfin0, Hfin1. split; [|reflexivity].
    intros [Hglue Hv]. apply andb_true_iff in Hv as [Hvm Hvrest].
    apply Numbered_app; [now apply Hn0|].
    replace (List.length (values f1)) with (0 + List.length (values f1)) by lia.
    apply Numbered_app; [|rewrite Nat.add_0_r; now apply Hn1].
    apply Numbered_empty_iff. destruct rest; [reflexivity | exact Hglue].
Qed.

Lemma interpretToken_ok (t : SqlToken) :
  forall offset,
    FragmentOk (validToken t = true) (interpretToken serialize t offset) offset.
Proof.
  induction t as [mt vs|d|ns|v|v|glue members IH|raw|cols tuples]
    using SqlToken_members_ind; intros offset.
  - apply interpretArray_ok.
  - intros f H. injection H as <-. simpl. split; [|reflexivity].
    intros _ k; simpl; lia.
  - intros f H. injection H as <-. simpl. split; [|reflexivity].
    intros _ k; simpl; lia.
  - apply interpretJson_ok.
  - apply interpretJson_ok.
  - simpl. destruct (token_values glue) eqn:Eg; [|intros f H; discriminate].
    intros f H. eapply interpretMembers_ok in H.
    + destruct H as [Hn Hfin]. split; [|exact Hfin].
      intros Hv. apply andb_true_iff in Hv as [Hglue Hmembers]. apply Hn.
      split; [|exact Hmembers].
      unfold validRaw in Hglue. rewrite Eg in Hglue.
      apply contiguous_Numbered in Hglue.
      now apply (Numbered_empty_iff _ 0).
    + rewrite Forall_forall in IH |- *.
      intros m Hm off. specialize (IH m Hm).
      destruct m as [p|t']; [apply interpretPrimitive_ok | apply IH].
  - apply interpretRaw_ok.
  - apply interpretUnnest_ok.
Qed.

Lemma interpretValue_ok (v : ValueExpression) (offset : nat) :
  FragmentOk (validValue v = true) (interpretValue serialize v offset) offset.
Proof.
  destruct v as [p|t]; simpl;
    [apply interpretPrimitive_ok | apply interpretToken_ok].
Qed.

(** The builder produces well-formed raw tokens. *)
Lemma sqlTagLoop_ok (parts : list string) :
  forall args offset,
    FragmentOk (forallb validValue args = true)
               (sqlTagLoop serialize parts args offset) offset.
Proof.
  induction parts as [|part parts IH]; intros args offset f H; simpl in H.
  - injection H as <-. simpl. split; [intros _; apply Numbered_nil | reflexivity].
  - destruct args as [|a args].
    + bind_inv H. injection H as <-. simpl.
      destruct (IH [] offset _ Hf) as [Hn Hfin].
      split; [intros _; now apply Numbered_text, Hn | exact Hfin].
    + bind_inv H. bind_inv H. injection H as <-. simpl.
      destruct (interpretValue_ok a offset _ Hf) as [Hn0 Hfin0].
      destruct (IH args _ _ Hf0) as [Hn1 Hfin1].
      rewrite length_app, forallb_app, Hfin0, Hfin1. split; [|reflexivity].
      intros Hv. apply andb_true_iff in Hv as [Ha Hargs].
      apply Numbered_text. apply Numbered_app; [now apply Hn0 | now apply Hn1].
Qed.

Lemma sqlTag_valid (schema : ZodTypeAny) (parts : list string)
  (args : list ValueExpression) (raw : SqlSqlToken) :
  forallb validValue args = true ->
  sqlTag serialize schema parts args = Return raw ->
  validRaw raw = true /\ zodObject raw = schema.
Proof.
  unfold sqlTag. intros Hv H. bind_inv H. injection H as <-.
  unfold validRaw. simpl. split; [|reflexivity]. apply Numbered_contiguous.
  now apply (sqlTagLoop_ok parts args 0 _ Hf).
Qed.

End InterpreterProperties.

(** ** Primitive values as runtime values *)

Lemma toJsValue_isPrimitive :
  forall p, isPrimitiveValueExpression (toJsValue p) = true.
Proof.
  fix IH 1. intros [d|b|n|s|items|]; simpl; try reflexivity.
  induction items as [|x rest IHrest]; simpl; [reflexivity|].
  now rewrite IH, IHrest.
Qed.

Lemma isPrimitive_toJsValue :
  forall v, isPrimitiveValueExpression v = true -> exists p, toJsValue p = v.
Proof.
  fix IH 1. intros [d|b|n|s|items| | |props|f]; simpl; intros H; try discriminate.
  - now exists (PBuffer d).
  - now exists (PBoolean b).
  - now exists (PNumber n).
  - now exists (PString s).
  - assert (Hitems : exists ps, map toJsValue ps = items).
    { induction items as [|x rest IHrest]; [now exists []|].
      simpl in H. apply andb_true_iff in H as [Hx Hrest].
      destruct (IH x Hx) as [p Hp]. destruct (IHrest Hrest) as [ps Hps].
      exists (p :: ps). simpl. now rewrite Hp, Hps. }
    destruct Hitems as [ps Hps]. exists (PArray ps). simpl. now rewrite Hps.
  - now exists PNull.
Qed.

(** ** What the interpreter rejects *)

Lemma primitivesOf_supplied (vs : list ValueExpression) :
  forall ps, primitivesOf vs = Some ps ->
    forallb finitePrimitive
      (flat_map (fun m => match m with
                          | Primitive p => [p]
                          | Token t' => suppliedValues t'
                          end) vs) = true.
Proof.
  induction vs as [|v rest IH]; simpl; intros ps H; [reflexivity|].
  destruct v as [p|t]; simpl in H; [|discriminate].
  destruct (finitePrimitive p) eqn:Ep; [|discriminate].
  destruct (primitivesOf rest) as [ps'|]; [|discriminate].
  simpl. rewrite Ep. now apply (IH ps').
Qed.

Lemma checkTuples_supplied (width : nat) (tuples : list (list ValueExpression)) :
  forall rows, checkTuples width tuples = Some rows ->
    forallb finitePrimitive
      (flat_map (flat_map (fun m => match m with
                                    | Primitive p => [p]
                                    | Token t' => suppliedValues t'
                                    end)) tuples) = true.
Proof.
  induction tuples as [|t rest IH]; simpl; intros rows H; [reflexivity|].
  unfold checkTuple in H.
  destruct (Nat.eqb (List.length t) width); [|discriminate].
  destruct (primitivesOf t) as [row|] eqn:Er; [|discriminate].
  destruct (checkTuples width rest) as [rows'|]; [|discriminate].
  rewrite forallb_app, (primitivesOf_supplied t row Er). now apply (IH rows').
Qed.

Lemma renderColumns_supplied (cols : list ColumnType) :
  forall offset s, renderColumns cols offset = Some s ->
                   flat_map columnValues cols = [].
Proof.
  induction cols as [|c rest IH]; simpl; intros offset s H; [reflexivity|].
  destruct (renderColumnType c) as [t|] eqn:Et; [|discriminate].
  destruct (renderColumns rest (S offset)) as [r|] eqn:Er; [|discriminate].
  rewrite (IH _ _ Er), app_nil_r.
  destruct c as [n|path|fragment]; simpl in *; try reflexivity.
  destruct (token_values fragment); [reflexivity | discriminate].
Qed.

Section Rejection.
Variable serialize : SerializableValue -> option string.

Lemma interpretMembers_each
  (member : ValueExpression -> nat -> Completion SqlFragment) (glueSql : Sql)
  (Q : ValueExpression -> Prop) (ms : list ValueExpression) :
  Forall (fun m => forall offset f, member m offset = Return f -> Q m) ms ->
  forall offset f, interpretMembers member glueSql ms offset = Return f ->
                   Forall Q ms.
Proof.
  intros Hms. induction Hms as [|m rest Hm Hrest IH]; intros offset f H.
  - constructor.
  - simpl in H. bind_inv H. bind_inv H. constructor; eauto.
Qed.

Lemma interpretToken_supplied_finite (t : SqlToken) :
  forall offset f, interpretToken serialize t offset = Return f ->
                   forallb finitePrimitive (suppliedValues t) = true.
Proof.
  induction t as [mt vs|d|ns|v|v|glue members IH|raw|cols tuples]
    using SqlToken_members_ind; intros offset f H; simpl in *;
    try reflexivity.
  - unfold interpretArray in H.
    destruct (forallb finitePrimitive vs) eqn:Ef; [|discriminate].
    rewrite forallb_app, Ef. destruct mt as [t|n]; [|reflexivity].
    destruct t; try discriminate. bind_inv H. simpl.
    unfold interpretRaw in Hf.
    now destruct (forallb finitePrimitive (token_values raw)).
  - destruct (token_values glue) eqn:Eg; [|discriminate]. simpl.
    eapply interpretMembers_each
      with (Q := fun m => forallb finitePrimitive
                            match m with
                            | Primitive p => [p]
                            | Token t' => suppliedValues t'
                            end = true) in H.
    + apply forallb_forall. intros x Hx. apply in_flat_map in Hx as (m & Hm & Hx).
      rewrite Forall_forall in H. specialize (H m Hm).
      rewrite forallb_forall in H. now apply H.
    + rewrite Forall_forall in IH |- *. intros m Hm off g Hg.
      specialize (IH m Hm). destruct m as [p|t'].
      * unfold interpretPrimitive in Hg. simpl.
        now destruct (finitePrimitive p).
      * eapply IH; eauto.
  - unfold interpretRaw in H.
    now destruct (forallb finitePrimitive (token_values raw)).
  - unfold interpretUnnest in H.
    destruct (checkTuples (List.length cols) tuples) as [rows|] eqn:Et; [|discriminate].
    destruct (renderColumns cols offset) as [s|] eqn:Es; [|discriminate].
    rewrite (renderColumns_supplied cols _ _ Es). simpl.
    exact (checkTuples_supplied (List.length cols) tuples rows Et).
Qed.

Lemma interpretMembers_throws
  (member : ValueExpression -> nat -> Completion SqlFragment) (glueSql : Sql)
  (ms : list ValueExpression) :
  Forall (fun m => forall offset e, member m offset = Throw e ->
                                    e = InvalidInputError) ms ->
  forall offset e, interpretMembers member glueSql ms offset = Throw e ->
                   e = InvalidInputError.
Proof.
  intros Hms. induction Hms as [|m rest Hm Hrest IH]; intros offset e H.
  - discriminate.
  - simpl in H. destruct (member m offset) as [f|e0] eqn:Em; simpl in H.
    + destruct (interpretMembers member glueSql rest
                  (offset + List.length (values f))) as [g|e1] eqn:Eg;
        simpl in H; [discriminate|].
      injection H as <-. eapply IH; eauto.
    + injection H as <-. eapply Hm; eauto.
Qed.

Lemma interpretToken_throws (t : SqlToken) :
  forall offset e, interpretToken serialize t offset = Throw e ->
                   e = InvalidInputError.
Proof.
  induction t as [mt vs|d|ns|v|v|glue members IH|raw|cols tuples]
    using SqlToken_members_ind; intros offset e H; simpl in *;
    try discriminate.
  - unfold interpretArray in H.
    destruct (forallb finitePrimitive vs); [|now injection H].
    destruct mt as [t|n]; [|discriminate].
    destruct t; try (now injection H).
    unfold interpretRaw in H.
    destruct (forallb finitePrimitive (token_values raw)); simpl in H;
      [discriminate | now injection H].
  - unfold interpretJson in H. destruct (serialize v); [discriminate | now injection H].
  - unfold interpretJson in H. destruct (serialize v); [discriminate | now injection H].
  - destruct (token_values glue); [|now injection H].
    eapply interpretMembers_throws; [|exact H].
    rewrite Forall_forall in IH |- *. intros m Hm off e0 He.
    specialize (IH m Hm). destruct m as [p|t'].
    + unfold interpretPrimitive in He.
      destruct (finitePrimitive p); [discriminate | now injection He].
    + eapply IH; eauto.
  - unfold interpretRaw in H.
    destruct (forallb finitePrimitive (token_values raw));
      [discriminate | now injection H].
  - unfold interpretUnnest in H.
    destruct (checkTuples (List.length cols) tuples);
      [destruct (renderColumns cols offset); [discriminate|] |]; now injection H.
Qed.

End Rejection.

(** ** The interpreter on the scenarios of the specification *)

Example scenario_S1 :
  option_map (fun raw => (render (token_sql raw), token_values raw))
    (match sqlTag refuseJson anySchema ["SELECT "; ", "; ", "; ""]
             [Primitive (PNumber (num 1)); Primitive (PString "a");
              Token (IdentifierToken ["u"; "id"])] with
     | Return raw => Some raw
     | Throw _ => None
     end)
  = Some (("SELECT $1, $2, " ++ escapeIdentifier "u" ++ "." ++ escapeIdentifier "id")%string,
          [PNumber (num 1); PString "a"]).
Proof. reflexivity. Qed.

Example scenario_S2 :
  interpret refuseJson sampleList = Return sampleListQuery
  /\ render (sql sampleListQuery) = "a=$1 AND b=$2".
Proof. split; reflexivity. Qed.

Example scenario_S3 :
  option_map (fun raw => (render (token_sql raw), token_values raw))
    (match sqlTag refuseJson anySchema ["SELECT * FROM "; ""] [Token sampleUnnest] with
     | Return raw => Some raw
     | Throw _ => None
     end)
  = Some ("SELECT * FROM unnest($1::int4[], $2::text[])",
          [PArray [PNumber (num 1); PNumber (num 2)];
           PArray [PString "x"; PString "y"]]).
Proof. reflexivity. Qed.

Section InterpreterClaims.
Variable serialize : SerializableValue -> option string.


(** C5. The members of [PrimitiveValueExpression] are exactly the buffers,
    booleans, numbers, strings, nulls and arrays of such values; no object
    and no function is one.  A token tree that supplies a non-finite number
    (NaN, Infinity, -Infinity) anywhere among its values is rejected by the
    interpreter with InvalidInputError, and every value of a returned query
    is finite. *)
Theorem primitive_values_and_nonfinite_rejection :
  (forall v, isPrimitiveValueExpression v = true <-> exists p, toJsValue p = v)
  /\ (forall p, In (kindOf (toJsValue p))
                   [KBoolean; KNumber; KString; KBuffer; KNull; KArray])
  /\ (forall v, kindOf v = KObject \/ kindOf v = KFunction ->
                isPrimitiveValueExpression v = false)
  /\ (forall items, isPrimitiveValueExpression (JsArray items) = true ->
                    forall x, In x items -> isPrimitiveValueExpression x = true)
  /\ (forall n, isFinite n = false <->
                n = NaN \/ n = Infinity \/ n = NegativeInfinity)
  /\ (forall t, existsb (fun p => negb (finitePrimitive p)) (suppliedValues t) = true ->
                interpret serialize t = Throw InvalidInputError)
  /\ (forall t q, interpret serialize t = Return q ->
                  forallb finitePrimitive (values q) = true).
Proof.
  split; [|split; [|split; [|split; [|split; [|split]]]]].
  - intros v. split; [apply isPrimitive_toJsValue|].
    intros [p <-]. apply toJsValue_isPrimitive.
  - intros p. destruct p; simpl; tauto.
  - intros v [H|H]; destruct v; simpl in *; congruence.
  - intros items H x Hx. simpl in H. rewrite forallb_forall in H. now apply H.
  - intros n. unfold NaN, Infinity, NegativeInfinity. split.
    + destruct n as [s|[|]| |s m e]; simpl; intros H; try discriminate; auto.
    + intros [->|[->| ->]]; reflexivity.
  - intros t H. destruct (interpret serialize t) as [q|e] eqn:E.
    + apply interpretToken_supplied_finite in E.
      apply existsb_exists in H as (p & Hp & Hnf).
      rewrite forallb_forall in E. rewrite (E p Hp) in Hnf. discriminate.
    + apply interpretToken_throws in E. now subst.
  - intros t q H. now destruct (interpretToken_ok serialize t 0 q H).
Qed.

End InterpreterClaims.


Lemma primitive_values_and_nonfinite_rejection_witness :
  existsb (fun p => negb (finitePrimitive p)) (suppliedValues sampleNaN) = true
  /\ interpret refuseJson sampleNaN = Throw InvalidInputError.
Proof.
  split; [reflexivity|].
  apply (proj1 (proj2 (proj2 (proj2 (proj2 (proj2
           (primitive_values_and_nonfinite_rejection refuseJson)))))) sampleNaN).
  reflexivity.
Defined.

(* ------------------------------------------------------------------ *)
(** ** Shape functions *)

(** C1. Whatever query was executed, [one] returns the row of a result with
    exactly 1 row, raises NotFoundError on 0 rows and DataIntegrityError on
    2 or more; [maybeOne] returns null on 0 rows, the row on 1 row, and
    raises DataIntegrityError on 2 or more. *)
Theorem one_and_maybeOne_by_row_count {T : Type}
  (query : SqlSqlToken -> Completion (QueryResult T))
  (slonikSql : SqlSqlToken) (result : QueryResult T) :
  query slonikSql = Return result ->
  (List.length (rows result) = 1 ->
   exists row, rows result = [row]
               /\ one query slonikSql = Return row
               /\ maybeOne query slonikSql = Return (Some row))
  /\ (List.length (rows result) = 0 ->
      one query slonikSql = Throw NotFoundError
      /\ maybeOne query slonikSql = Return None)
  /\ (2 <= List.length (rows result) ->
      one query slonikSql = Throw DataIntegrityError
      /\ maybeOne query slonikSql = Throw DataIntegrityError).
Proof.
  intros Hq. unfold one, maybeOne. rewrite Hq. simpl.
  destruct (rows result) as [|r1 [|r2 rest]]; simpl;
    (split; [|split]); intros Hlen; try lia; try (split; reflexivity).
  exists r1. repeat split.
Qed.

Lemma one_and_maybeOne_by_row_count_witness :
  one (answering [sampleRow]) sampleA = Return sampleRow
  /\ maybeOne (answering [sampleRow]) sampleA = Return (Some sampleRow)
  /\ one (answering []) sampleA = Throw NotFoundError
  /\ maybeOne (answering []) sampleA = Return None
  /\ one (answering [sampleRow; sampleRow]) sampleA = Throw DataIntegrityError
  /\ maybeOne (answering [sampleRow; sampleRow]) sampleA = Throw DataIntegrityError.
Proof.
  pose proof (one_and_maybeOne_by_row_count (answering [sampleRow]) sampleA
                (resultOf [sampleRow]) eq_refl) as (H1 & _ & _).
  pose proof (one_and_maybeOne_by_row_count (answering []) sampleA
                (resultOf []) eq_refl) as (_ & H0 & _).
  pose proof (one_and_maybeOne_by_row_count (answering [sampleRow; sampleRow]) sampleA
                (resultOf [sampleRow; sampleRow]) eq_refl) as (_ & _ & H2).
  destruct (H1 eq_refl) as (row & Hrow & Hone & Hmaybe).
  injection Hrow as <-.
  destruct (H0 eq_refl) as [Hone0 Hmaybe0].
  destruct (H2 (le_n 2)) as [Hone2 Hmaybe2].
  repeat split; assumption.
Defined.

(* ------------------------------------------------------------------ *)
(** ** Retries *)







(** Scenario S6: a handler that fails once with SQLSTATE 40001 and then
    succeeds, under the default transactionRetryLimit of 5, is invoked
    exactly twice and the transaction succeeds. *)
Example scenario_S6 :
  attempts (transaction (createClientConfiguration noInput) countingHandler failingOnce)
  = [Some (Some "40001"); None]
  /\ settled (transaction (createClientConfiguration noInput) countingHandler failingOnce)
     = Resolved 1
  /\ map (fun call => render (sql (fst call)))
         (executed (pinned (transaction (createClientConfiguration noInput)
                                        countingHandler failingOnce)))
     = ["START TRANSACTION"; "SELECT 1"; "ROLLBACK";
        "START TRANSACTION"; "SELECT 1"; "COMMIT"].
Proof. repeat split. Qed.

(* ------------------------------------------------------------------ *)
(** ** Interceptor hooks *)

(** C4, as stated, does not hold: [transformRow] is none of
    [transformQuery], [beforeQueryExecution] and [beforePoolConnection], and
    it returns a row, not null. *)
Lemma transformRow_returns_a_row :
  ~ (forall (i : Interceptor) (c : HookCall) (v : HookReturn),
        isListed listedValueHooks (hookOf c) = false ->
        callHook i c = Some v ->
        v = ReturnsNull).
Proof.
  intros H.
  specialize (H rowInterceptor
                (CallTransformRow sampleQueryContext sampleListQuery sampleRow [])
                (ReturnsRow sampleRow) eq_refl eq_refl).
  discriminate H.
Qed.

(** C4, amended. Every hook other than [transformQuery], [transformRow],
    [beforeQueryExecution] and [beforePoolConnection] returns null, so that
    two interceptors cannot be told apart by what such a hook returns;
    [transformQuery] returns a query, [transformRow] a row,
    [beforeQueryExecution] a query result or null, and
    [beforePoolConnection] a pool, null or undefined. *)
Theorem observational_hooks_return_null (i : Interceptor) (c : HookCall)
  (v : HookReturn) :
  callHook i c = Some v ->
  (isListed (TransformRow :: listedValueHooks) (hookOf c) = false ->
   v = ReturnsNull
   /\ forall i' v', callHook i' c = Some v' -> v' = v)
  /\ (hookOf c = TransformQuery -> exists q, v = ReturnsQuery q)
  /\ (hookOf c = TransformRow -> exists row, v = ReturnsRow row)
  /\ (hookOf c = BeforeQueryExecution ->
      v = ReturnsNull \/ exists r, v = ReturnsQueryResult r)
  /\ (hookOf c = BeforePoolConnection ->
      v = ReturnsNull \/ v = ReturnsUndefined \/ exists p, v = ReturnsPool p).
Proof.
  assert (Hobs : forall (A : Type) (hook : option A) (run : A -> Null) (w : HookReturn),
             option_map (fun h => ofNull (run h)) hook = Some w -> w = ReturnsNull).
  { intros A [h|] run w Hw; simpl in Hw; [|discriminate].
    injection Hw as <-. now destruct (run h). }
  intros Hv.
  split; [|split; [|split; [|split]]].
  - intros Hl.
    destruct c; simpl in Hl; try discriminate; simpl in Hv;
      (assert (Hn : v = ReturnsNull) by (eapply Hobs; exact Hv));
      (split; [exact Hn|]); intros i' v' Hv'; simpl in Hv'; subst v;
      eapply Hobs; exact Hv'.
  - intros Hh. destruct c; simpl in Hh; try discriminate. simpl in Hv.
    destruct (transformQuery i); simpl in Hv; [|discriminate].
    injection Hv as <-. eauto.
  - intros Hh. destruct c; simpl in Hh; try discriminate. simpl in Hv.
    destruct (transformRow i); simpl in Hv; [|discriminate].
    injection Hv as <-. eauto.
  - intros Hh. destruct c; simpl in Hh; try discriminate. simpl in Hv.
    destruct (beforeQueryExecution i) as [hook|]; simpl in Hv; [|discriminate].
    injection Hv as <-. destruct (hook c q); simpl; eauto.
  - intros Hh. destruct c; simpl in Hh; try discriminate. simpl in Hv.
    destruct (beforePoolConnection i) as [hook|]; simpl in Hv; [|discriminate].
    injection Hv as <-. destruct (hook c); simpl; eauto.
Qed.

Lemma observational_hooks_return_null_witness :
  callHook observingInterceptor
           (CallBeforeTransformQuery sampleQueryContext sampleListQuery)
  = Some ReturnsNull
  /\ isListed (TransformRow :: listedValueHooks)
              (hookOf (CallBeforeTransformQuery sampleQueryContext sampleListQuery))
     = false
  /\ ReturnsNull = ReturnsNull.
Proof.
  split; [reflexivity|]. split; [reflexivity|].
  exact (proj1 (proj1 (observational_hooks_return_null observingInterceptor
                         (CallBeforeTransformQuery sampleQueryContext sampleListQuery)
                         ReturnsNull eq_refl)
                      eq_refl)).
Defined.

(* ------------------------------------------------------------------ *)
(** ** Connection handles *)

(** C8. The transaction handle exposes exactly the common query methods
    (query, one, oneFirst, maybeOne, maybeOneFirst, many, manyFirst, any,
    anyFirst, exists), [transaction] and [stream]; it exposes neither
    [copyFromBinary] nor [end], which the pool handle has. *)
Theorem transaction_handle_methods :
  (forall method,
      In method DatabaseTransactionConnection_keys
      <-> In method queryMethods \/ method = "transaction" \/ method = "stream")
  /\ ~ In "copyFromBinary" DatabaseTransactionConnection_keys
  /\ ~ In "end" DatabaseTransactionConnection_keys
  /\ In "copyFromBinary" DatabasePool_keys
  /\ In "end" DatabasePool_keys.
Proof.
  split; [|split; [|split; [|split]]].
  - intros method.
    unfold DatabaseTransactionConnection_keys, CommonQueryMethods_keys, queryMethods.
    simpl. intuition (subst; auto 20).
  - unfold DatabaseTransactionConnection_keys, CommonQueryMethods_keys. simpl.
    intuition discriminate.
  - unfold DatabaseTransactionConnection_keys, CommonQueryMethods_keys. simpl.
    intuition discriminate.
  - unfold DatabasePool_keys, CommonQueryMethods_keys. simpl. auto 20.
  - unfold DatabasePool_keys, CommonQueryMethods_keys. simpl. auto 20.
Qed.

(* ------------------------------------------------------------------ *)
(** ** Client configuration *)

(** C7, as stated, does not hold: the configuration has a thirteenth
    option, [PgPool] (the override of the underlying driver), which is not
    in the enumerated set. *)
Lemma PgPool_is_not_enumerated :
  ~ (forall key, In key ClientConfiguration_keys <-> In key enumeratedKeys).
Proof.
  intros H. destruct (H "PgPool") as [Hin _].
  assert (Hk : In "PgPool" ClientConfiguration_keys) by (simpl; auto).
  apply Hin in Hk. simpl in Hk. intuition discriminate.
Qed.

(** C7, amended. The client configuration consists of the enumerated
    options and of one more, the optional [PgPool]; [PgPool] and [ssl] are
    the optional ones and have no default.  Completed from an empty input
    the configuration has the enumerated defaults (captureStackTrace true,
    connectionRetryLimit 3, connectionTimeout 5000,
    idleInTransactionSessionTimeout 60000, idleTimeout 5000, interceptors [],
    maximumPoolSize 10, queryRetryLimit 5, statementTimeout 60000,
    transactionRetryLimit 5, typeParsers []), which are those the doc
    comments of the type state wherever they state one, and each of the four
    timeouts can be set to DISABLE_TIMEOUT. *)
Theorem configuration_options_and_defaults :
  (forall key, In key ClientConfiguration_keys
               <-> In key enumeratedKeys \/ key = "PgPool")
  /\ (forall key, In key ClientConfiguration_optional
                  <-> key = "PgPool" \/ key = "ssl")
  /\ PgPool (createClientConfiguration noInput) = None
  /\ ssl (createClientConfiguration noInput) = None
  /\ (forall key, In key enumeratedKeys ->
                  valueOf (createClientConfiguration noInput) key
                  = enumeratedDefault key)
  /\ (forall key d, documentedDefault key = Some d ->
                    In key enumeratedKeys /\ enumeratedDefault key = Some d)
  /\ (forall key, In key ClientConfiguration_timeouts ->
                  In key ClientConfiguration_keys
                  /\ valueOf (createClientConfiguration timeoutsDisabled) key = None
                  /\ exists ms, valueOf (createClientConfiguration noInput) key
                                = Some (DefaultNumber ms)).
Proof.
  split; [|split; [|split; [|split; [|split; [|split]]]]].
  - intros key. unfold ClientConfiguration_keys, enumeratedKeys. simpl.
    intuition (subst; auto 20).
  - intros key. unfold ClientConfiguration_optional. simpl. intuition (subst; auto).
  - reflexivity.
  - reflexivity.
  - intros key Hk. unfold enumeratedKeys in Hk. simpl in Hk.
    repeat (destruct Hk as [<-|Hk]; [reflexivity|]). contradiction.
  - intros key d. unfold documentedDefault.
    repeat match goal with
           | |- context [String.eqb key ?k] =>
               destruct (String.eqb_spec key k) as [->|_];
               [intros Hd; injection Hd as <-; split; [simpl; auto 20 | reflexivity]|]
           end.
    discriminate.
  - intros key Hk. unfold ClientConfiguration_timeouts in Hk. simpl in Hk.
    repeat (destruct Hk as [<-|Hk];
            [split; [simpl; auto 20 | split; [reflexivity | eexists; reflexivity]]|]).
    contradiction.
Qed.

Lemma configuration_options_and_defaults_witness :
  documentedDefault "statementTimeout" = Some (DefaultNumber 60000%N)
  /\ enumeratedDefault "statementTimeout" = Some (DefaultNumber 60000%N)
  /\ valueOf (createClientConfiguration noInput) "statementTimeout"
     = enumeratedDefault "statementTimeout"
  /\ valueOf (createClientConfiguration timeoutsDisabled) "statementTimeout" = None.
Proof.
  pose proof configuration_options_and_defaults
    as (_ & _ & _ & _ & Hdefault & Hdoc & Htimeout).
  split; [reflexivity|].
  split; [exact (proj2 (Hdoc "statementTimeout" _ eq_refl))|].
  split.
  - apply Hdefault. simpl. auto 20.
  - apply (Htimeout "statementTimeout"). simpl. auto.
Defined.

(* ------------------------------------------------------------------ *)
(** ** The typed surface *)

(** C10. The field [zodObject] of [SqlSqlToken<T>] has type [T] when [T]
    is a Zod schema type and [never] otherwise; the combinator [type] is
    defined on Zod schema types only and produces a token of the schema it
    is given; every typed query method given the token of a Zod schema
    computes its row type as [z.infer] of that schema; and for an argument
    that is not a Zod schema type the token a query method accepts has a
    [zodObject] of type [never], so that no other row schema can be
    attached. *)
Theorem row_schema_is_a_zod_schema (T : TypeArgument) :
  (extendsZodTypeAny T = true ->
   zodObjectType T = TArgument T
   /\ typeCombinator T = Some T
   /\ tokenArgument T = T
   /\ exists schema,
       T = ZodSchemaType schema
       /\ forall m, rowTypeOf (returnType m T) = TInfer schema)
  /\ (extendsZodTypeAny T = false ->
      zodObjectType T = TNever
      /\ typeCombinator T = None
      /\ zodObjectType (tokenArgument T) = TNever
      /\ forall m, rowTypeOf (returnType m T) = TArgument T).
Proof.
  destruct T as [schema|row|kind]; simpl; split; intros H; try discriminate.
  - repeat split. exists schema. split; [reflexivity|]. intros m. now destruct m.
  - repeat split. intros m. now destruct m.
  - repeat split. intros m. now destruct m.
Qed.

Lemma row_schema_is_a_zod_schema_witness :
  extendsZodTypeAny (ZodSchemaType anySchema) = true
  /\ zodObjectType (ZodSchemaType anySchema) = TArgument (ZodSchemaType anySchema)
  /\ extendsZodTypeAny (RowType "Record<string, PrimitiveValueExpression>") = false
  /\ zodObjectType (RowType "Record<string, PrimitiveValueExpression>") = TNever.
Proof.
  split; [reflexivity|].
  split; [exact (proj1 (proj1 (row_schema_is_a_zod_schema (ZodSchemaType anySchema))
                              eq_refl))|].
  split; [reflexivity|].
  exact (proj1 (proj2 (row_schema_is_a_zod_schema
                         (RowType "Record<string, PrimitiveValueExpression>"))
                      eq_refl)).
Defined.

(* ------------------------------------------------------------------ *)
(** ** Handle types widen from the transaction connection to the pool *)

Lemma handle_keys_agree :
  map fst CommonQueryMethods_type = CommonQueryMethods_keys
  /\ map fst DatabaseTransactionConnection_type = DatabaseTransactionConnection_keys
  /\ map fst DatabasePoolConnection_type = DatabasePoolConnection_keys
  /\ map fst DatabasePool_type = DatabasePool_keys.
Proof. repeat split. Qed.

Ltac by_key key :=
  repeat match goal with
         | |- context [String.eqb ?k key] =>
             destruct (String.eqb_spec k key) as [?|?]; [subst key; simpl|]
         end.

(** X1. A property of the transaction connection is a property of the pool
    connection with the same type, and a property of the pool connection is
    a property of the pool with the same type: both members of
    [DatabaseConnection] can stand in for a pool connection, and all three
    handles for a transaction connection.  The inclusions are strict
    ([copyFromBinary], [end]). *)
Theorem handles_widen (key : string) (t : PropertyType) :
  (propertyType DatabaseTransactionConnection_type key = Some t ->
   propertyType DatabasePoolConnection_type key = Some t)
  /\ (propertyType DatabasePoolConnection_type key = Some t ->
      forall handle, In handle DatabaseConnection_members ->
                     propertyType handle key = Some t)
  /\ propertyType DatabaseTransactionConnection_type "copyFromBinary" = None
  /\ propertyType DatabasePoolConnection_type "copyFromBinary"
     = Some PropQueryCopyFromBinaryFunction
  /\ propertyType DatabasePoolConnection_type "end" = None
  /\ propertyType DatabasePool_type "end" = Some PropEnd.
Proof.
  split; [|split; [|repeat split]].
  - unfold propertyType, DatabaseTransactionConnection_type,
      DatabasePoolConnection_type, CommonQueryMethods_type.
    cbn [app find fst].
    by_key key; intros H; first [exact H | discriminate H].
  - intros H handle [<-|[<-|[]]]; [|exact H].
    revert H. unfold propertyType, DatabasePool_type,
      DatabasePoolConnection_type, CommonQueryMethods_type.
    cbn [app find fst].
    by_key key; intros H; first [exact H | discriminate H].
Qed.

Lemma handles_widen_witness :
  propertyType DatabaseTransactionConnection_type "transaction" = Some PropTransaction
  /\ propertyType DatabasePoolConnection_type "transaction" = Some PropTransaction
  /\ propertyType DatabasePool_type "transaction" = Some PropTransaction.
Proof.
  pose proof (handles_widen "transaction" PropTransaction) as (H1 & H2 & _).
  split; [reflexivity|]. split; [exact (H1 eq_refl)|].
  apply (H2 (H1 eq_refl)). simpl. auto.
Defined.

(* ------------------------------------------------------------------ *)
(** ** Primitive and serializable values *)

Lemma primitive_serializable :
  forall v, isPrimitiveValueExpression v = true ->
            isSerializableValue v = negb (containsBuffer v).
Proof.
  fix IH 1. intros [d|b|n|s|items| | |props|f]; simpl; intros H;
    try reflexivity; try discriminate.
  induction items as [|x rest IHrest]; simpl; [reflexivity|].
  simpl in H. apply andb_true_iff in H as [Hx Hrest].
  rewrite (IH x Hx), (IHrest Hrest), negb_orb. reflexivity.
Qed.

Lemma serializable_primitive :
  forall v, isSerializableValue v = true ->
            isPrimitiveValueExpression v = negb (containsObject v).
Proof.
  fix IH 1. intros [d|b|n|s|items| | |props|f]; simpl; intros H;
    try reflexivity; try discriminate.
  induction items as [|x rest IHrest]; simpl; [reflexivity|].
  simpl in H. apply andb_true_iff in H as [Hx Hrest].
  rewrite (IH x Hx), (IHrest Hrest), negb_orb. reflexivity.
Qed.

Lemma toJsValue_defined (p : PrimitiveValueExpression) :
  toJsValue p <> JsUndefined.
Proof. destruct p; discriminate. Qed.

(** X2. The types [PrimitiveValueExpression] and [SerializableValue]
    overlap without either containing the other: a primitive value
    expression is serializable exactly when no buffer occurs in it, and a
    serializable value is a primitive value expression exactly when no
    object occurs in it.  A query result row is serializable exactly when
    none of its columns holds a buffer. *)
Theorem primitive_versus_serializable :
  (forall v, isPrimitiveValueExpression v = true ->
             isSerializableValue v = negb (containsBuffer v))
  /\ (forall v, isSerializableValue v = true ->
                isPrimitiveValueExpression v = negb (containsObject v))
  /\ (forall row : QueryResultRow,
         isSerializableValue (rowToJsValue row)
         = negb (existsb (fun kv => containsBuffer (toJsValue (snd kv))) row)).
Proof.
  split; [exact primitive_serializable|]. split; [exact serializable_primitive|].
  intros row. unfold rowToJsValue. simpl.
  induction row as [|[k p] rest IH]; simpl; [reflexivity|].
  rewrite IH, negb_orb.
  rewrite <- (primitive_serializable (toJsValue p) (toJsValue_isPrimitive p)).
  pose proof (toJsValue_defined p) as Hd.
  destruct (toJsValue p); try reflexivity. contradiction.
Qed.

Lemma primitive_versus_serializable_witness :
  isPrimitiveValueExpression (JsArray [JsNumber (num 1); JsBuffer []]) = true
  /\ isSerializableValue (JsArray [JsNumber (num 1); JsBuffer []]) = false
  /\ isSerializableValue (JsArray [JsObject [("a", JsUndefined)]]) = true
  /\ isPrimitiveValueExpression (JsArray [JsObject [("a", JsUndefined)]]) = false.
Proof.
  pose proof primitive_versus_serializable as (H1 & H2 & _).
  split; [reflexivity|].
  split; [exact (H1 (JsArray [JsNumber (num 1); JsBuffer []]) eq_refl)|].
  split; [reflexivity|].
  exact (H2 (JsArray [JsObject [("a", JsUndefined)]]) eq_refl).
Defined.

(* ------------------------------------------------------------------ *)
(** ** Relations between the typed query methods *)

(** X3. For a type argument that is a row or a Zod schema, the return type
    of a [...First] method is that of its plain method with the row replaced
    by its column type [X[keyof X]]; for a primitive type argument the two
    methods declare the same return type.  [any] and [many], and [anyFirst]
    and [manyFirst], declare the same return type for every argument. *)
Theorem first_methods_index_the_row (m m' : TypedQueryMethod) (T : TypeArgument) :
  firstVariant m = Some m' ->
  returnType m' T
  = (if extendsMixedRow T then indexRow (returnType m T) else returnType m T)
  /\ returnType QueryAnyFunction T = returnType QueryManyFunction T
  /\ returnType QueryAnyFirstFunction T = returnType QueryManyFirstFunction T.
Proof.
  intros H. split; [|split; reflexivity].
  destruct m; simpl in H; try discriminate; injection H as <-;
    destruct T as [schema|row|kind]; reflexivity.
Qed.

Lemma first_methods_index_the_row_witness :
  firstVariant QueryMaybeOneFunction = Some QueryMaybeOneFirstFunction
  /\ returnType QueryMaybeOneFirstFunction (ZodSchemaType anySchema)
     = TPromise (TOrNull (TIndexed (TInfer anySchema)))
  /\ returnType QueryMaybeOneFirstFunction (PrimitiveType KNumber)
     = returnType QueryMaybeOneFunction (PrimitiveType KNumber).
Proof.
  split; [reflexivity|].
  split.
  - exact (proj1 (first_methods_index_the_row QueryMaybeOneFunction
                    QueryMaybeOneFirstFunction (ZodSchemaType anySchema) eq_refl)).
  - exact (proj1 (first_methods_index_the_row QueryMaybeOneFunction
                    QueryMaybeOneFirstFunction (PrimitiveType KNumber) eq_refl)).
Defined.


(* ------------------------------------------------------------------ *)
(** ** Public and internal signatures *)

(** X5. Every internal function starts with the arguments [log],
    [connection] and [clientConfiguration]; what follows, apart from [uid]
    and [transactionDepth], has the types and the optionality of the
    arguments of the public method, in the same order.  In particular the
    optional per-call [transactionRetryLimit] is the last argument of
    [transaction] and of both internal transaction functions.  The internal
    query method has no argument for the [values] that every public query
    method accepts. *)
Theorem internal_signatures_extend_public (public internal : Signature) :
  In (public, internal) internalFunctions ->
  firstn 3 internal
  = [ mkArgument "log" ArgLogger false;
      mkArgument "connection" ArgPgPoolClient false;
      mkArgument "clientConfiguration" ArgClientConfiguration false ]
  /\ map shape (publicPart internal) = map shape public
  /\ (public = transaction_signature ->
      last public (mkArgument "" ArgLogger false)
      = mkArgument "transactionRetryLimit" ArgNumber true
      /\ last internal (mkArgument "" ArgLogger false)
         = mkArgument "transactionRetryLimit" ArgNumber true)
  /\ firstn 3 InternalQueryMethod_signature = firstn 3 internal
  /\ In ArgPrimitiveValues (map argumentType TypedQueryMethod_signature)
  /\ In ArgPrimitiveValues (map argumentType QueryExistsFunction_signature)
  /\ ~ In ArgPrimitiveValues (map argumentType InternalQueryMethod_signature).
Proof.
  intros H. simpl in H.
  destruct H as [H|[H|[H|[H|[]]]]]; injection H as <- <-;
    (split; [reflexivity|]); (split; [reflexivity|]);
    (split; [intros E; try discriminate E; split; reflexivity|]);
    (split; [reflexivity|]); (split; [simpl; auto|]); (split; [simpl; auto|]);
    simpl; intuition discriminate.
Qed.

Lemma internal_signatures_extend_public_witness :
  In (transaction_signature, InternalNestedTransactionFunction_signature)
     internalFunctions
  /\ map shape (publicPart InternalNestedTransactionFunction_signature)
     = map shape transaction_signature.
Proof.
  assert (Hin : In (transaction_signature, InternalNestedTransactionFunction_signature)
                   internalFunctions) by (simpl; auto).
  split; [exact Hin|].
  exact (proj1 (proj2 (internal_signatures_extend_public transaction_signature
                         InternalNestedTransactionFunction_signature Hin))).
Defined.

(* ------------------------------------------------------------------ *)
(** ** The tagged template reaches every kind of token *)

(** X6. Every token of the union [SqlToken] is of a kind some member of
    [SqlTaggedTemplate] is declared to produce, and a token produced by a
    member other than the call signature, [literalValue] and [type] is not a
    raw fragment; [json] and [jsonb] produce tokens of different kinds. *)
Theorem every_token_kind_has_a_builder (t : SqlToken) :
  (exists member, In (member, tokenKind t) SqlTaggedTemplate_members)
  /\ (forall member,
         In (member, tokenKind t) SqlTaggedTemplate_members ->
         tokenKind t = SqlKind ->
         In member ["sql"; "literalValue"; "type"])
  /\ (In ("json", tokenKind t) SqlTaggedTemplate_members ->
      ~ In ("jsonb", tokenKind t) SqlTaggedTemplate_members).
Proof.
  split; [|split].
  - destruct t; simpl; eexists; eauto 12.
  - intros member Hin Hk. rewrite Hk in Hin. simpl in Hin.
    repeat (destruct Hin as [Hin|Hin]; [try discriminate Hin|]);
      try contradiction; injection Hin as <-; simpl; auto.
  - destruct t; simpl; intuition discriminate.
Qed.

Lemma every_token_kind_has_a_builder_witness :
  In ("unnest", tokenKind sampleUnnest) SqlTaggedTemplate_members
  /\ In ("type", tokenKind (SqlTokenOf sampleA)) SqlTaggedTemplate_members
  /\ In "type" ["sql"; "literalValue"; "type"].
Proof.
  split; [simpl; auto 12|].
  assert (Hin : In ("type", tokenKind (SqlTokenOf sampleA)) SqlTaggedTemplate_members)
    by (simpl; auto 12).
  split; [exact Hin|].
  exact (proj1 (proj2 (every_token_kind_has_a_builder (SqlTokenOf sampleA)))
               "type" Hin eq_refl).
Defined.
